(** * Visitor sign-out protocol of the Visitor Management API

    A shallow embedding of [routes/visitors.js]: the [visitors] table, the
    SQL statements the router sends through [db.query], the seven route
    handlers, and the properties of the QR sign-out protocol. *)

From Stdlib Require Import ZArith List String Ascii Bool Lia.
From Stdlib Require Import DecimalString DecimalZ DecimalPos.
Import ListNotations.

Local Open Scope string_scope.
Local Open Scope Z_scope.
Local Open Scope list_scope.

(** ** Text helpers: template literals and their inverse reading *)

Module Text.

(** [strip_prefix pre s] is the rest of [s] after [pre], when [s] starts
    with [pre]. *)
Fixpoint strip_prefix (pre s : string) : option string :=
  match pre with
  | EmptyString => Some s
  | String a pre' =>
      match s with
      | EmptyString => None
      | String b s' => if Ascii.eqb a b then strip_prefix pre' s' else None
      end
  end.

(** [`${n}`] for an integer [n] that JavaScript prints in plain decimal. *)
Definition string_of_Z (n : Z) : string := NilZero.string_of_int (Z.to_int n).

Definition Z_of_string (s : string) : option Z :=
  option_map Z.of_int (NilZero.int_of_string s).

End Text.

(** ** The [visitors] table *)

(** A nullable text value: a bound [?] parameter ([undefined] and [null] are
    sent as [NULL]) and the content of a column it was written to.  The
    engine's conversion of a bound text to the declared type of a descriptive
    column is not modelled: such a column holds what was bound. *)
Definition text := option string.

(** One row.  The columns are those the router's statements name: the key
    [id], the thirteen columns of the [INSERT], and [status] and [qr_status].
    [status] is the nullable integer flag that [NOT status] works on. *)
Record Visitor := mkVisitor {
  id : Z;
  first_name : text;
  last_name : text;
  email : text;
  phone : text;
  gender : text;
  company_id : text;
  department_id : text;
  designation_id : text;
  whom_to_meet : text;
  purpose : text;
  aadhar_no : text;
  address : text;
  image : text;
  status : option Z;
  qr_status : string
}.

(** The columns that take a bound parameter. *)
Inductive column :=
| c_first_name | c_last_name | c_email | c_phone | c_gender
| c_company_id | c_department_id | c_designation_id | c_whom_to_meet
| c_purpose | c_aadhar_no | c_address | c_image.

Definition get_column (c : column) (r : Visitor) : text :=
  match c with
  | c_first_name => first_name r
  | c_last_name => last_name r
  | c_email => email r
  | c_phone => phone r
  | c_gender => gender r
  | c_company_id => company_id r
  | c_department_id => department_id r
  | c_designation_id => designation_id r
  | c_whom_to_meet => whom_to_meet r
  | c_purpose => purpose r
  | c_aadhar_no => aadhar_no r
  | c_address => address r
  | c_image => image r
  end.

Definition set_column (c : column) (v : text) (r : Visitor) : Visitor :=
  let '(mkVisitor i fn ln em ph ge co de ds wh pu aa ad im st qr) := r in
  match c with
  | c_first_name => mkVisitor i v ln em ph ge co de ds wh pu aa ad im st qr
  | c_last_name => mkVisitor i fn v em ph ge co de ds wh pu aa ad im st qr
  | c_email => mkVisitor i fn ln v ph ge co de ds wh pu aa ad im st qr
  | c_phone => mkVisitor i fn ln em v ge co de ds wh pu aa ad im st qr
  | c_gender => mkVisitor i fn ln em ph v co de ds wh pu aa ad im st qr
  | c_company_id => mkVisitor i fn ln em ph ge v de ds wh pu aa ad im st qr
  | c_department_id => mkVisitor i fn ln em ph ge co v ds wh pu aa ad im st qr
  | c_designation_id => mkVisitor i fn ln em ph ge co de v wh pu aa ad im st qr
  | c_whom_to_meet => mkVisitor i fn ln em ph ge co de ds v pu aa ad im st qr
  | c_purpose => mkVisitor i fn ln em ph ge co de ds wh v aa ad im st qr
  | c_aadhar_no => mkVisitor i fn ln em ph ge co de ds wh pu v ad im st qr
  | c_address => mkVisitor i fn ln em ph ge co de ds wh pu aa v im st qr
  | c_image => mkVisitor i fn ln em ph ge co de ds wh pu aa ad v st qr
  end.

Definition set_status (v : option Z) (r : Visitor) : Visitor :=
  let '(mkVisitor i fn ln em ph ge co de ds wh pu aa ad im _ qr) := r in
  mkVisitor i fn ln em ph ge co de ds wh pu aa ad im v qr.

Definition set_qr_status (v : string) (r : Visitor) : Visitor :=
  let '(mkVisitor i fn ln em ph ge co de ds wh pu aa ad im st _) := r in
  mkVisitor i fn ln em ph ge co de ds wh pu aa ad im st v.

(** SQL [NOT] on a nullable integer: [NOT NULL] is [NULL], [NOT 0] is [1],
    and [NOT n] is [0] for every other [n]. *)
Definition sql_not (v : option Z) : option Z :=
  match v with
  | None => None
  | Some 0 => Some 1
  | Some _ => Some 0
  end.

(** The values [status] takes as a flag: [NULL], [0] and [1]. *)
Definition boolean_like (v : option Z) : bool :=
  match v with
  | None => true
  | Some n => (n =? 0) || (n =? 1)
  end.

(** ** Statements *)

(** One item of a [SET] list. *)
Inductive Assignment :=
| Bind (c : column) (v : text)      (* c = ?             *)
| QrStatus (lit : string)            (* qr_status = 'lit' *)
| NotStatus.                         (* status = NOT status *)

Inductive Statement :=
| SELECT_ALL                                     (* SELECT * FROM visitors *)
| SELECT_WHERE_ID (p : string)                   (* ... WHERE id = ? *)
| INSERT (cols : list column) (values : list text)
| UPDATE (sets : list Assignment) (p : string).  (* UPDATE visitors SET ... WHERE id = ? *)

(** What [db.query] hands to its callback as [result]: the rows of a
    select, or the header of a write with its [affectedRows] and
    [insertId]. *)
Record QueryResult := mkResult {
  rows : list Visitor;
  affectedRows : nat;
  insertId : Z
}.

(** The error object of a failed call, by its message. *)
Definition Error := string.

(** The connection [db]: the table behind it, the table's AUTO_INCREMENT
    counter, and the statements submitted through [db.query] so far. *)
Record Db := mkDb {
  visitors : list Visitor;
  auto_increment : Z;
  submitted : list Statement
}.

Definition assign (a : Assignment) (r : Visitor) : Visitor :=
  match a with
  | Bind c v => set_column c v r
  | QrStatus lit => set_qr_status lit r
  | NotStatus => set_status (sql_not (status r)) r
  end.

(** A [SET] list is applied from left to right. *)
Definition assign_all (sets : list Assignment) (r : Visitor) : Visitor :=
  fold_left (fun r a => assign a r) sets r.

Section Engine.

(** [id = ?] for the integer key and a bound text: the engine's
    comparison, which converts the text to a number.  It is the server's,
    not the router's; every result below holds for any such comparison. *)
Variable id_eq : Z -> string -> bool.

(** The value a new row gets in [status], which the [INSERT] does not
    list: the column default of the table definition. *)
Variable default_status : option Z.

Definition where_id (p : string) (r : Visitor) : bool := id_eq (id r) p.

Definition update_row (sets : list Assignment) (p : string) (r : Visitor)
  : Visitor :=
  if where_id p r then assign_all sets r else r.

(** Modelled from the spec: the table definition is not in the source; a
    row starts with [qr_status] = 'unused' ("Starts `unused` at
    creation"). The key is the AUTO_INCREMENT value, the columns the
    [INSERT] does not list are [NULL] or their default. *)
Definition blank_row (key : Z) : Visitor :=
  mkVisitor key None None None None None None None None None None None None
            None default_status "unused".

Definition insert_row (key : Z) (cols : list column) (values : list text)
  : Visitor :=
  assign_all (map (fun cv => Bind (fst cv) (snd cv)) (combine cols values))
             (blank_row key).

(** The effect of a statement on the table, and its result. *)
Definition exec (q : Statement) (t : list Visitor) (next : Z)
  : QueryResult * list Visitor * Z :=
  match q with
  | SELECT_ALL => (mkResult t 0 0, t, next)
  | SELECT_WHERE_ID p => (mkResult (filter (where_id p) t) 0 0, t, next)
  | INSERT cols values =>
      (mkResult [] 1 next, t ++ [insert_row next cols values], next + 1)
  | UPDATE sets p =>
      (mkResult [] (List.length (filter (where_id p) t)) 0,
       map (update_row sets p) t, next)
  end.

(** [db.query(sql, values, callback)]: the statement is submitted; either
    the call fails with [err] and the table is as before, or the statement
    runs and the callback gets its result. [fault] is what the connection
    reports for this call. *)
Definition db_query (fault : option Error) (q : Statement) (d : Db)
  : (Error + QueryResult) * Db :=
  let log := submitted d ++ [q] in
  match fault with
  | Some err => (inl err, mkDb (visitors d) (auto_increment d) log)
  | None =>
      let '(res, t, next) := exec q (visitors d) (auto_increment d) in
      (inr res, mkDb t next log)
  end.

End Engine.

(** ** The router *)

(** The twelve fields a handler reads from [req.body], for a body as the
    route documents it: every field a text, or absent.  Bodies of other
    shapes are in [Body] further down. *)
Record Form := mkForm {
  f_first_name : text;
  f_last_name : text;
  f_email : text;
  f_phone : text;
  f_gender : text;
  f_company_id : text;
  f_department_id : text;
  f_designation_id : text;
  f_whom_to_meet : text;
  f_purpose : text;
  f_aadhar_no : text;
  f_address : text
}.

(** What a handler sends. *)
Inductive Payload :=
| Html (markup : string)                     (* res.send(`...`) *)
| ErrorObject (err : Error)                  (* res.send(err) *)
| JsonRows (rows : list Visitor)             (* res.json(result) *)
| JsonRow (row : option Visitor)             (* res.json(result[0]) *)
| JsonMessage (message : string)             (* res.json({ message }) *)
| JsonQr (qr : string)                       (* res.json({ qr }) *)
| JsonVisitorQr (visitorId : Z) (qr : string). (* res.json({ visitorId, qr }) *)

(** A response with its status code, or none at all: the [await] of the
    POST handler has no handler for a rejection, so nothing is sent. *)
Inductive Response :=
| Reply (code : Z) (body : Payload)
| Unanswered (err : Error).

(** The requests the router has a route for, with their parameters: [id] is
    [req.params.id], [file] the stored name of the uploaded image
    ([req.file?.filename]). *)
Inductive Request :=
| GET_visitors
| GET_visitor (id : string)
| POST_visitor (body : Form) (file : option string)
| PUT_visitor (id : string) (body : Form) (file : option string)
| PUT_status (id : string)
| GET_card (id : string)
| GET_signout (id : string).

(** The [values] array both writing handlers start from. *)
Definition values (body : Form) : list text :=
  [ f_first_name body; f_last_name body; f_email body; f_phone body;
    f_gender body; f_company_id body; f_department_id body;
    f_designation_id body; f_whom_to_meet body; f_purpose body;
    f_aadhar_no body; f_address body ].

Definition descriptive_columns : list column :=
  [ c_first_name; c_last_name; c_email; c_phone; c_gender;
    c_company_id; c_department_id; c_designation_id; c_whom_to_meet;
    c_purpose; c_aadhar_no; c_address ].

(** [if (image)]: a string is truthy unless it is empty. *)
Definition truthy (v : option string) : bool :=
  match v with
  | Some s => negb (String.eqb s "")
  | None => false
  end.

(** The text a card encodes. *)
Definition qrText (id : string) : string :=
  ("http://localhost:3001/api/visitors/signout/" ++ id)%string.

(** The page a sign-out answers with. *)
Definition signout_page (id : string) : string :=
  ("<h2>Visitor ID " ++ id
     ++ " signed out successfully. QR is now invalid.</h2>")%string.

(** Reading a scanned text back: the part after the sign-out address. *)
Definition embedded_id (url : string) : option string :=
  Text.strip_prefix "http://localhost:3001/api/visitors/signout/" url.

Section Router.

Variable id_eq : Z -> string -> bool.
Variable default_status : option Z.

(** [QRCode.toDataURL]: the encoder of the [qrcode] package, which gives
    an error or the image as a data URL. *)
Variable toDataURL : string -> Error + string.

Local Abbreviation db_query := (db_query id_eq default_status).

(** GET / *)
Definition get_visitors (fault : option Error) (d : Db) : Response * Db :=
  match db_query fault SELECT_ALL d with
  | (inl err, d') => (Reply 500 (ErrorObject err), d')
  | (inr result, d') => (Reply 200 (JsonRows (rows result)), d')
  end.

(** GET /:id *)
Definition get_visitor (fault : option Error) (id : string) (d : Db)
  : Response * Db :=
  match db_query fault (SELECT_WHERE_ID id) d with
  | (inl err, d') => (Reply 500 (ErrorObject err), d')
  | (inr result, d') => (Reply 200 (JsonRow (hd_error (rows result))), d')
  end.

(** POST / *)
Definition post_visitor (fault : option Error) (body : Form)
           (file : option string) (d : Db) : Response * Db :=
  let image := if truthy file then file else None in
  match db_query fault
          (INSERT (descriptive_columns ++ [c_image]) (values body ++ [image]))
          d with
  | (inl err, d') => (Reply 500 (ErrorObject err), d')
  | (inr result, d') =>
      let visitorId := insertId result in
      let qrText := qrText (Text.string_of_Z visitorId) in
      match toDataURL qrText with
      | inr qrDataURL => (Reply 200 (JsonVisitorQr visitorId qrDataURL), d')
      | inl err => (Unanswered err, d')
      end
  end.

(** PUT /:id *)
Definition put_visitor (fault : option Error) (id : string) (body : Form)
           (file : option string) (d : Db) : Response * Db :=
  let image := file in
  let sets :=
    map (fun cv => Bind (fst cv) (snd cv))
        (combine descriptive_columns (values body)) in
  let sets := if truthy image then sets ++ [Bind c_image image] else sets in
  match db_query fault (UPDATE sets id) d with
  | (inl err, d') => (Reply 500 (ErrorObject err), d')
  | (inr _, d') => (Reply 200 (JsonMessage "Visitor updated successfully"), d')
  end.

(** PUT /:id/status *)
Definition put_status (fault : option Error) (id : string) (d : Db)
  : Response * Db :=
  match db_query fault (UPDATE [NotStatus] id) d with
  | (inl err, d') => (Reply 500 (ErrorObject err), d')
  | (inr _, d') => (Reply 200 (JsonMessage "Status toggled"), d')
  end.

(** GET /:id/card *)
Definition get_card (id : string) (d : Db) : Response * Db :=
  let qrText := qrText id in
  match toDataURL qrText with
  | inl err => (Reply 500 (ErrorObject err), d)
  | inr qr => (Reply 200 (JsonQr qr), d)
  end.

(** GET /signout/:id *)
Definition get_signout (fault : option Error) (id : string) (d : Db)
  : Response * Db :=
  match db_query fault (UPDATE [QrStatus "used"] id) d with
  | (inl err, d') => (Reply 500 (ErrorObject err), d')
  | (inr _, d') => (Reply 200 (Html (signout_page id)), d')
  end.

(** One request served; [fault] is what the connection reports for the
    statement of this request, if it sends one. *)
Definition handle (fault : option Error) (req : Request) (d : Db)
  : Response * Db :=
  match req with
  | GET_visitors => get_visitors fault d
  | GET_visitor id => get_visitor fault id d
  | POST_visitor body file => post_visitor fault body file d
  | PUT_visitor id body file => put_visitor fault id body file d
  | PUT_status id => put_status fault id d
  | GET_card id => get_card id d
  | GET_signout id => get_signout fault id d
  end.

(** Requests served one after the other. *)
Fixpoint serve (reqs : list (option Error * Request)) (d : Db) : Db :=
  match reqs with
  | [] => d
  | (fault, req) :: rest => serve rest (snd (handle fault req d))
  end.

(** The row GET /:id answers with: [result[0]] of the select. *)
Definition select_by_id (p : string) (t : list Visitor) : option Visitor :=
  hd_error (filter (where_id id_eq p) t).

End Router.

(** The [SET] list PUT /:id builds, by itself. *)
Definition put_visitor_sets (body : Form) (file : option string)
  : list Assignment :=
  let sets :=
    map (fun cv => Bind (fst cv) (snd cv))
        (combine descriptive_columns (values body)) in
  if truthy file then sets ++ [Bind c_image file] else sets.

(** A response that reports a failure: any status but 200, or no answer. *)
Definition is_failure (resp : Response) : bool :=
  match resp with
  | Reply code _ => negb (code =? 200)
  | Unanswered _ => true
  end.

(** Reading a token: scan the image, then take the id out of the text. *)
Definition decode_token (scan : string -> option string) (qr : string)
  : option string :=
  match scan qr with
  | Some url => embedded_id url
  | None => None
  end.

(** ** What a [SET] list writes *)

Definition column_eq_dec (c c' : column) : {c = c'} + {c <> c'}.
Proof. decide equality. Defined.

Definition writes_column (c : column) (a : Assignment) : bool :=
  match a with
  | Bind c' _ => if column_eq_dec c c' then true else false
  | _ => false
  end.

Definition writes_status (a : Assignment) : bool :=
  match a with NotStatus => true | _ => false end.

Definition writes_qr_status (a : Assignment) : bool :=
  match a with QrStatus _ => true | _ => false end.

(** The only literal a statement of the router writes to [qr_status]. *)
Definition writes_only_used (a : Assignment) : bool :=
  match a with
  | QrStatus lit => String.eqb lit "used"
  | _ => true
  end.

(** ** Requests in flight *)

(** The server handles a request up to its [db.query] call and answers in
    the callback.  The connection runs the submitted statements one at a
    time, so a request in flight is one that waits for its statement to run,
    and what is left to chance is the order in which the waiting requests
    are taken. *)
Inductive Task :=
| Pending (req : Request)
| Answered (resp : Response).

Record Config := mkConfig {
  store : Db;
  tasks : list Task
}.

Definition answered (t : Task) : bool :=
  match t with Answered _ => true | Pending _ => false end.

Section Scheduling.

Variable id_eq : Z -> string -> bool.
Variable default_status : option Z.
Variable toDataURL : string -> Error + string.

Local Abbreviation handle := (handle id_eq default_status toDataURL).

(** Any pending request may be the next one served. *)
Inductive step (fault : option Error) : Config -> Config -> Prop :=
| step_serve d before req after :
    step fault
         (mkConfig d (before ++ Pending req :: after))
         (mkConfig (snd (handle fault req d))
                   (before ++ Answered (fst (handle fault req d)) :: after)).

(** A run, with what the connection reported at each step. *)
Inductive run : list (option Error) -> Config -> Config -> Prop :=
| run_stop c : run [] c c
| run_next fault faults c c' c'' :
    step fault c c' -> run faults c' c'' -> run (fault :: faults) c c''.

End Scheduling.

(** ** A concrete server to run the handlers on *)

Module Sample.

(** The comparison on the texts the router itself produces: the plain
    decimal form of the key. *)
Definition key_eq (key : Z) (p : string) : bool :=
  String.eqb (Text.string_of_Z key) p.

Definition default_status : option Z := Some 0.

(** A stand-in encoder: it fails on a text longer than it has room for and
    otherwise wraps the text. *)
Definition encoder (s : string) : Error + string :=
  if (String.length s <=? 64)%nat
  then inr ("data:image/png;base64," ++ s)%string
  else inl "The amount of data is too big to be stored in a QR Code".

Definition scanner (qr : string) : option string :=
  Text.strip_prefix "data:image/png;base64," qr.

Definition blank (key : Z) (st : option Z) (qr : string) : Visitor :=
  mkVisitor key None None None None None None None None None None None None
            None st qr.

Definition form : Form :=
  mkForm (Some "Asha") (Some "Rao") None (Some "555-0100") None
         (Some "1") (Some "2") None (Some "7") (Some "Audit") None None.

(** Visitor 41 has signed out, visitor 42 has not. *)
Definition db : Db :=
  mkDb [blank 41 (Some 1) "used"; blank 42 (Some 0) "unused"] 43 [].

(** One visitor with a stored photo. *)
Definition photo_db : Db :=
  mkDb [set_column c_image (Some "1700000000000.png")
                   (blank 42 (Some 0) "unused")] 43 [].

Definition signout := get_signout key_eq default_status.
Definition card := get_card encoder.
Definition toggle := put_status key_eq default_status.
Definition update := put_visitor key_eq default_status.
Definition create := post_visitor key_eq default_status encoder.
Definition serve_all := serve key_eq default_status encoder.
Definition select := select_by_id key_eq.

(** Requests of every kind aimed at visitor 41, some of them failing. *)
Definition traffic : list (option Error * Request) :=
  [ (None, PUT_status "41");
    (None, PUT_visitor "41" form (Some "1700000000000.png"));
    (None, GET_card "41");
    (Some "ER_LOCK_WAIT_TIMEOUT", GET_signout "41");
    (None, POST_visitor form None);
    (None, GET_signout "41");
    (None, GET_visitor "41");
    (None, GET_visitors) ].

End Sample.

(** ** More of the visitors router *)

(** The name the router's multer storage gives an uploaded file:
    [Date.now() + path.extname(file.originalname)], the clock reading in
    decimal followed by the extension. *)
Definition storage_filename (extname : string -> string) (now : Z)
           (originalname : string) : string :=
  (Text.string_of_Z now ++ extname originalname)%string.

(** The number of [db.query] calls a handler makes. *)
Definition queries (req : Request) : nat :=
  match req with
  | GET_card _ => 0
  | _ => 1
  end.

Definition is_creation (req : Request) : bool :=
  match req with
  | POST_visitor _ _ => true
  | _ => false
  end.

(** ** The token check of [verifyToken] *)

Module Auth.

(** [s.split(sep)] for a one-character separator, as its first piece and
    the pieces after it: the empty text splits into one empty piece. *)
Fixpoint pieces (sep : ascii) (s : string) : string * list string :=
  match s with
  | EmptyString => (EmptyString, [])
  | String c rest =>
      let (first, others) := pieces sep rest in
      if Ascii.eqb c sep then (EmptyString, first :: others)
      else (String c first, others)
  end.

Definition split (sep : ascii) (s : string) : list string :=
  let (first, others) := pieces sep s in first :: others.

(** A text without the character [c]. *)
Fixpoint lacks (c : ascii) (s : string) : bool :=
  match s with
  | EmptyString => true
  | String a rest => negb (Ascii.eqb a c) && lacks c rest
  end.

(** The outcome of the middleware: [next()] with what it put in
    [req.user], if anything, or the response it ended the request with. *)
Inductive Verdict (Claims : Type) :=
| Next (user : option Claims)
| Denied (code : Z) (message : string).

Arguments Next {Claims} user.
Arguments Denied {Claims} code message.

Section VerifyToken.

(** The payload of a token. *)
Variable Claims : Type.

(** [jwt.verify(token, process.env.JWT_SECRET)]: the decoded payload, or
    nothing when it throws. *)
Variable jwt_verify : string -> option Claims.

(** [req.headers['authorization']?.split(' ')[1]] *)
Definition token_of (authorization : option string) : option string :=
  match authorization with
  | Some header => nth_error (split " " header) 1
  | None => None
  end.

(** The middleware from the token on, which runs when the toggle is on. *)
Definition check_token (authorization : option string) : Verdict Claims :=
  let token := token_of authorization in
  if negb (truthy token)
  then Denied 401 "Access Denied. No token provided."
  else
    match token with
    | Some t =>
        match jwt_verify t with
        | Some decoded => Next (Some decoded)
        | None => Denied 401 "Invalid Token"
        end
    | None => Denied 401 "Access Denied. No token provided."
    end.

Definition enforceToken : bool := false.

Definition verifyToken (authorization : option string) : Verdict Claims :=
  if negb enforceToken then Next None else check_token authorization.

End VerifyToken.

End Auth.

(** ** The employees router: the statements of its two writing handlers *)

Module Employees.

(** [req.body], read by field name; [None] is [undefined]. *)
Definition Body := string -> option string.

(** A statement as [db.query] gets it: the text and the bound values. *)
Record Query := mkQuery {
  sql : string;
  params : list text
}.

Inductive Answer :=
| Message (code : Z) (message : string)   (* res.status(code).json({ message }) *)
| Failure (err : Error)                   (* res.status(500).json(err) *)
| Created (id : Z).                       (* res.json({ id: result.insertId }) *)

Definition fields : list string :=
  [ "first_name"; "last_name"; "email"; "phone"; "joining_date";
    "gender"; "company_id"; "department_id"; "designation_id";
    "status"; "remarks" ].

(** [path.replace(/\\/g, "/")] *)
Fixpoint forward_slashes (path : string) : string :=
  match path with
  | EmptyString => EmptyString
  | String c rest =>
      String (if Ascii.eqb c "092" then "/"%char else c) (forward_slashes rest)
  end.

(** [updates.join(sep)] *)
Fixpoint join (sep : string) (l : list string) : string :=
  match l with
  | [] => EmptyString
  | x :: rest =>
      match rest with
      | [] => x
      | _ :: _ => (x ++ sep ++ join sep rest)%string
      end
  end.

Fixpoint count_char (c : ascii) (s : string) : nat :=
  match s with
  | EmptyString => 0
  | String a rest => (if Ascii.eqb a c then 1 else 0) + count_char c rest
  end.

Definition text_eqb (a b : text) : bool :=
  match a, b with
  | Some x, Some y => String.eqb x y
  | None, None => true
  | _, _ => false
  end.

(** One round of [fields.forEach]: a field the body defines adds its
    assignment and its value. *)
Definition push_field (body : Body) (acc : list string * list text)
           (field : string) : list string * list text :=
  match body field with
  | Some v => (fst acc ++ [(field ++ " = ?")%string], snd acc ++ [Some v])
  | None => acc
  end.

Definition collect (body : Body) : list string * list text :=
  fold_left (push_field body) fields ([], []).

(** What [fields.forEach] keeps true from round to round: every
    assignment has one placeholder, and there is a value for each. *)
Definition balanced (acc : list string * list text) : Prop :=
  Forall (fun u => count_char "?" u = 1%nat) (fst acc)
  /\ List.length (fst acc) = List.length (snd acc).

Section Handlers.

(** [bcrypt.hash(password, 10)]: the hash, or the error it rejects with. *)
Variable bcrypt_hash : option string -> Error + string.

(** PUT /:id.  [file] is [req.file.path] when a file came with the request;
    [fault] is what the connection reports for the statement.  The result is
    the answer and the statement submitted, if one was. *)
Definition put_employee (fault : option Error) (id : string) (body : Body)
           (file : option string) : Answer * option Query :=
  let password := body "password" in
  let confirm_password := body "confirm_password" in
  if truthy password && negb (text_eqb password confirm_password)
  then (Message 400 "Passwords do not match", None)
  else
    let '(updates, values) := collect body in
    let hashed :=
      if truthy password
      then match bcrypt_hash password with
           | inr hashedPassword =>
               inr (updates ++ ["password = ?"], values ++ [Some hashedPassword])
           | inl error => inl error
           end
      else inr (updates, values) in
    match hashed with
    | inl error => (Failure error, None)
    | inr (updates, values) =>
        let '(updates, values) :=
          match file with
          | Some path =>
              (updates ++ ["image = ?"], values ++ [Some (forward_slashes path)])
          | None => (updates, values)
          end in
        let values := values ++ [Some id] in
        let sql :=
          ("UPDATE employees SET " ++ join ", " updates ++ " WHERE id = ?")%string in
        (match fault with
         | Some err => Failure err
         | None => Message 200 "Employee updated successfully"
         end, Some (mkQuery sql values))
    end.

(** POST /.  [result] is what [db.query] reports: [err], or the
    [insertId]. *)
Definition post_employee (result : Error + Z) (body : Body)
           (file : option string) : Answer * option Query :=
  let password := body "password" in
  let confirm_password := body "confirm_password" in
  if negb (text_eqb password confirm_password)
  then (Message 400 "Passwords do not match", None)
  else
    match bcrypt_hash password with
    | inl error => (Failure error, None)
    | inr hashedPassword =>
        let image := option_map forward_slashes file in
        let sql := "INSERT INTO employees 
      (first_name, last_name, email, phone, joining_date, gender, company_id, department_id, designation_id, status, password, remarks, image) 
      VALUES (?, ?, ?, ?, ?, ?, ?, ?, ?, ?, ?, ?, ?)" in
        let values :=
          [ body "first_name"; body "last_name"; body "email"; body "phone";
            body "joining_date"; body "gender"; body "company_id";
            body "department_id"; body "designation_id"; body "status";
            Some hashedPassword; body "remarks"; image ] in
        (match result with
         | inl err => Failure err
         | inr insertId => Created insertId
         end, Some (mkQuery sql values))
    end.

End Handlers.

End Employees.

(** ** Sample requests for the token check and the employees router *)

Module Sample2.

(** A stand-in for [jwt.verify]: it accepts tokens that start with
    "good." and decodes them to the rest. *)
Definition jwt (token : string) : option string :=
  Text.strip_prefix "good." token.

(** A stand-in for [bcrypt.hash]: no password is an error. *)
Definition hash (password : option string) : Error + string :=
  match password with
  | Some p => inr ("$2b$10$" ++ p)%string
  | None => inl "data and salt arguments required"
  end.

(** A stand-in for [path.extname]: the text from the last dot on. *)
Fixpoint extname (name : string) : string :=
  match name with
  | EmptyString => EmptyString
  | String c rest =>
      match extname rest with
      | EmptyString =>
          if Ascii.eqb c "." && Auth.lacks "." rest then name else EmptyString
      | ext => ext
      end
  end.

Definition body (l : list (string * string)) : Employees.Body :=
  fun field =>
    match find (fun kv => String.eqb (fst kv) field) l with
    | Some kv => Some (snd kv)
    | None => None
    end.

End Sample2.

(** ** Bodies as they arrive, and what the driver makes of them *)

(** [Form] above is a body as the route documents it, every field a text
    or absent.  Nothing in the handlers checks this.  A JSON body carries
    numbers, booleans and [null]; a bracketed field name of a multipart
    body ([address[first_name]]) makes the field an object, a repeated one
    an array.  An entry of an object or an item of an array is a scalar
    here: values nested more deeply are not modelled. *)
Inductive scalar :=
| js_undefined
| js_null
| js_boolean (b : bool)
| js_number (printed : string)       (* by its text, [val + ''] *)
| js_string (s : string).

Inductive jsval :=
| js_scalar (v : scalar)
| js_array (items : list scalar)
| js_object (entries : list (string * scalar)).

(** The twelve fields of [req.body], of any shape. *)
Record Body := mkBody {
  any_first_name : jsval;
  any_last_name : jsval;
  any_email : jsval;
  any_phone : jsval;
  any_gender : jsval;
  any_company_id : jsval;
  any_department_id : jsval;
  any_designation_id : jsval;
  any_whom_to_meet : jsval;
  any_purpose : jsval;
  any_aadhar_no : jsval;
  any_address : jsval
}.

(** A body of scalars only. *)
Record Scalars := mkScalars {
  s_first_name : scalar;
  s_last_name : scalar;
  s_email : scalar;
  s_phone : scalar;
  s_gender : scalar;
  s_company_id : scalar;
  s_department_id : scalar;
  s_designation_id : scalar;
  s_whom_to_meet : scalar;
  s_purpose : scalar;
  s_aadhar_no : scalar;
  s_address : scalar
}.

Definition plain (sb : Scalars) : Body :=
  mkBody (js_scalar (s_first_name sb)) (js_scalar (s_last_name sb))
         (js_scalar (s_email sb)) (js_scalar (s_phone sb))
         (js_scalar (s_gender sb)) (js_scalar (s_company_id sb))
         (js_scalar (s_department_id sb)) (js_scalar (s_designation_id sb))
         (js_scalar (s_whom_to_meet sb)) (js_scalar (s_purpose sb))
         (js_scalar (s_aadhar_no sb)) (js_scalar (s_address sb)).

Definition is_scalar (v : jsval) : bool :=
  match v with js_scalar _ => true | _ => false end.

Definition is_plain (body : Body) : bool :=
  is_scalar (any_first_name body) && is_scalar (any_last_name body)
  && is_scalar (any_email body) && is_scalar (any_phone body)
  && is_scalar (any_gender body) && is_scalar (any_company_id body)
  && is_scalar (any_department_id body)
  && is_scalar (any_designation_id body)
  && is_scalar (any_whom_to_meet body) && is_scalar (any_purpose body)
  && is_scalar (any_aadhar_no body) && is_scalar (any_address body).

(** A literal of the statement text. *)
Inductive literal :=
| lit_null                           (* NULL *)
| lit_true                           (* true *)
| lit_false                          (* false *)
| lit_number (printed : string)      (* 42 *)
| lit_quoted (s : string).           (* 'text' *)

(** How the driver writes a scalar into the statement text. *)
Definition escape (v : scalar) : literal :=
  match v with
  | js_undefined => lit_null
  | js_null => lit_null
  | js_boolean true => lit_true
  | js_boolean false => lit_false
  | js_number printed => lit_number printed
  | js_string s => lit_quoted s
  end.

(** What a descriptive column holds after a literal was written to it; as
    for [text], the column holds what was bound. *)
Definition text_of_literal (l : literal) : text :=
  match l with
  | lit_null => None
  | lit_true => Some "1"
  | lit_false => Some "0"
  | lit_number printed => Some printed
  | lit_quoted s => Some s
  end.

Definition texts (sb : Scalars) : Form :=
  mkForm (text_of_literal (escape (s_first_name sb)))
         (text_of_literal (escape (s_last_name sb)))
         (text_of_literal (escape (s_email sb)))
         (text_of_literal (escape (s_phone sb)))
         (text_of_literal (escape (s_gender sb)))
         (text_of_literal (escape (s_company_id sb)))
         (text_of_literal (escape (s_department_id sb)))
         (text_of_literal (escape (s_designation_id sb)))
         (text_of_literal (escape (s_whom_to_meet sb)))
         (text_of_literal (escape (s_purpose sb)))
         (text_of_literal (escape (s_aadhar_no sb)))
         (text_of_literal (escape (s_address sb))).

(** The left side of an item of the [SET] list once the values are
    written in: a column the statement text names, or a key of an object,
    which the driver writes as a quoted identifier. *)
Inductive Place :=
| named (c : column)
| keyed (key : string).

(** The right side: a literal, or [`key` = literal], which there is a
    comparison. *)
Inductive Operand :=
| just (l : literal)
| compared (key : string) (l : literal).

(** [c = ?] with the value written in, read as the engine reads it.  A
    scalar gives [c = literal].  An array is written as its items with
    commas between them, which reads as an assignment only when there is
    one item.  An object is written as [`k1` = v1, `k2` = v2, ...]: the
    first pair makes the item [c = `k1` = v1], a comparison assigned to
    [c], and every further pair is an assignment of its own.  [None] is a
    text that does not parse. *)
Definition expand (c : column) (v : jsval) : option (list (Place * Operand)) :=
  match v with
  | js_scalar s => Some [(named c, just (escape s))]
  | js_array [s] => Some [(named c, just (escape s))]
  | js_array _ => None
  | js_object [] => None
  | js_object ((k, s) :: rest) =>
      Some ((named c, compared k (escape s))
              :: map (fun ks => (keyed (fst ks), just (escape (snd ks)))) rest)
  end.

Fixpoint expand_all (pairs : list (column * jsval))
  : option (list (Place * Operand)) :=
  match pairs with
  | [] => Some []
  | (c, v) :: rest =>
      match expand c v, expand_all rest with
      | Some items, Some more => Some (items ++ more)
      | _, _ => None
      end
  end.

(** What an identifier of the statement can name: the key, the two state
    columns, a descriptive column, or a column of the table that the
    router never names. *)
Inductive Target :=
| t_id
| t_status
| t_qr_status
| t_column (c : column)
| t_other.

(** The engine, as far as the statements of the router depend on it. *)
Record Engine := mkEngine {
  (** [id = ?] for a key and a bound text *)
  id_matches : Z -> string -> bool;
  (** the default of [status] *)
  status_default : option Z;
  (** the column an identifier names, if any *)
  column_named : string -> option Target;
  (** the value of [`key` = literal] on a row: true, false or NULL *)
  equals : Visitor -> Target -> literal -> literal;
  (** a literal as a value of [id], [status], [qr_status], or the error
      the engine rejects it with *)
  to_id : literal -> Error + Z;
  to_status : literal -> Error + option Z;
  to_qr_status : literal -> Error + string
}.

Definition set_id (v : Z) (r : Visitor) : Visitor :=
  let '(mkVisitor _ fn ln em ph ge co de ds wh pu aa ad im st qr) := r in
  mkVisitor v fn ln em ph ge co de ds wh pu aa ad im st qr.

Inductive Resolved :=
| r_just (l : literal)
| r_compared (t : Target) (l : literal).

(** The table and its counter, without the log of [Db]. *)
Record Store := mkStore {
  table : list Visitor;
  next_key : Z
}.

Definition store_of (d : Db) : Store := mkStore (visitors d) (auto_increment d).

Definition db_of (s : Store) : Db := mkDb (table s) (next_key s) [].

(** The requests to the router, an update with a body of any shape
    among them. *)
Inductive RequestAny :=
| Typed (req : Request)
| PUT_visitor_any (id : string) (body : Body) (file : option string).

Definition is_plain_request (req : RequestAny) : bool :=
  match req with
  | Typed _ => true
  | PUT_visitor_any _ body _ => is_plain body
  end.

Definition scalar_of (v : jsval) : scalar :=
  match v with
  | js_scalar x => x
  | _ => js_undefined
  end.

(** The scalars of a body whose fields are scalars. *)
Definition scalars_of (body : Body) : Scalars :=
  mkScalars (scalar_of (any_first_name body)) (scalar_of (any_last_name body))
            (scalar_of (any_email body)) (scalar_of (any_phone body))
            (scalar_of (any_gender body)) (scalar_of (any_company_id body))
            (scalar_of (any_department_id body))
            (scalar_of (any_designation_id body))
            (scalar_of (any_whom_to_meet body)) (scalar_of (any_purpose body))
            (scalar_of (any_aadhar_no body)) (scalar_of (any_address body)).

(** A request whose body, if it is an update, has scalar fields, as a
    request with a body of texts. *)
Definition as_typed (req : RequestAny) : Request :=
  match req with
  | Typed req => req
  | PUT_visitor_any id body file => PUT_visitor id (texts (scalars_of body)) file
  end.

Section Updates.

Variable E : Engine.

Definition resolve (item : Place * Operand) : option (Target * Resolved) :=
  let place :=
    match fst item with
    | named c => Some (t_column c)
    | keyed key => column_named E key
    end in
  let operand :=
    match snd item with
    | just l => Some (r_just l)
    | compared key l =>
        match column_named E key with
        | Some t => Some (r_compared t l)
        | None => None
        end
    end in
  match place, operand with
  | Some t, Some o => Some (t, o)
  | _, _ => None
  end.

Fixpoint resolve_all (items : list (Place * Operand))
  : option (list (Target * Resolved)) :=
  match items with
  | [] => Some []
  | item :: rest =>
      match resolve item, resolve_all rest with
      | Some i, Some more => Some (i :: more)
      | _, _ => None
      end
  end.

Definition store_literal (t : Target) (l : literal) (r : Visitor)
  : Error + Visitor :=
  match t with
  | t_column c => inr (set_column c (text_of_literal l) r)
  | t_qr_status =>
      match to_qr_status E l with
      | inr v => inr (set_qr_status v r)
      | inl err => inl err
      end
  | t_status =>
      match to_status E l with
      | inr v => inr (set_status v r)
      | inl err => inl err
      end
  | t_id =>
      match to_id E l with
      | inr v => inr (set_id v r)
      | inl err => inl err
      end
  | t_other => inr r
  end.

Definition assign_resolved (item : Target * Resolved) (r : Visitor)
  : Error + Visitor :=
  let l :=
    match snd item with
    | r_just l => l
    | r_compared t l => equals E r t l
    end in
  store_literal (fst item) l r.

(** The items are applied from left to right; a rejected value fails the
    statement. *)
Fixpoint assign_resolved_all (items : list (Target * Resolved)) (r : Visitor)
  : Error + Visitor :=
  match items with
  | [] => inr r
  | item :: rest =>
      match assign_resolved item r with
      | inr r' => assign_resolved_all rest r'
      | inl err => inl err
      end
  end.

Fixpoint update_rows (items : list (Target * Resolved)) (p : string)
         (t : list Visitor) : Error + list Visitor :=
  match t with
  | [] => inr []
  | r :: rest =>
      let row := if id_matches E (id r) p
                 then assign_resolved_all items r else inr r in
      match row, update_rows items p rest with
      | inr r', inr rest' => inr (r' :: rest')
      | inl err, _ => inl err
      | _, inl err => inl err
      end
  end.

(** [db.query] for the UPDATE of PUT /:id with the values as they come:
    the call fails, or the text does not parse, or it names no column, or
    the engine rejects a value, and then no row has changed; or the
    statement runs. *)
Definition run_update (fault : option Error) (pairs : list (column * jsval))
           (p : string) (t : list Visitor) : Error + list Visitor :=
  match fault with
  | Some err => inl err
  | None =>
      match expand_all pairs with
      | None => inl "ER_PARSE_ERROR"
      | Some items =>
          match resolve_all items with
          | None => inl "ER_BAD_FIELD_ERROR"
          | Some resolved => update_rows resolved p t
          end
      end
  end.

Definition any_values (body : Body) : list jsval :=
  [ any_first_name body; any_last_name body; any_email body; any_phone body;
    any_gender body; any_company_id body; any_department_id body;
    any_designation_id body; any_whom_to_meet body; any_purpose body;
    any_aadhar_no body; any_address body ].

(** PUT /:id, for a body of any shape. *)
Definition put_visitor_any (fault : option Error) (id : string) (body : Body)
           (file : option string) (s : Store) : Response * Store :=
  let image := file in
  let pairs := combine descriptive_columns (any_values body) in
  let pairs :=
    match image with
    | Some name =>
        if truthy image then pairs ++ [(c_image, js_scalar (js_string name))]
        else pairs
    | None => pairs
    end in
  match run_update fault pairs id (table s) with
  | inl err => (Reply 500 (ErrorObject err), s)
  | inr t => (Reply 200 (JsonMessage "Visitor updated successfully"),
              mkStore t (next_key s))
  end.

Variable toDataURL : string -> Error + string.

Definition handle_any (fault : option Error) (req : RequestAny) (s : Store)
  : Response * Store :=
  match req with
  | Typed req =>
      let served :=
        handle (id_matches E) (status_default E) toDataURL fault req (db_of s) in
      (fst served, store_of (snd served))
  | PUT_visitor_any id body file => put_visitor_any fault id body file s
  end.

Fixpoint serve_any (reqs : list (option Error * RequestAny)) (s : Store)
  : Store :=
  match reqs with
  | [] => s
  | (fault, req) :: rest => serve_any rest (snd (handle_any fault req s))
  end.

End Updates.

(** ** Reading a card back *)

(** The characters of a text up to the first one that [stop] holds of. *)
Fixpoint up_to (stop : ascii -> bool) (s : string) : string :=
  match s with
  | EmptyString => EmptyString
  | String c rest => if stop c then EmptyString else String c (up_to stop rest)
  end.

(** A text without one slash at its end. *)
Fixpoint chop_slash (s : string) : string :=
  match s with
  | EmptyString => EmptyString
  | String c rest =>
      match rest with
      | EmptyString => if Ascii.eqb c "/" then EmptyString else s
      | String _ _ => String c (chop_slash rest)
      end
  end.

Definition lower_char (c : ascii) : ascii :=
  let n := nat_of_ascii c in
  if ((65 <=? n) && (n <=? 90))%nat then ascii_of_nat (n + 32) else c.

Fixpoint lower (s : string) : string :=
  match s with
  | EmptyString => EmptyString
  | String c rest => String (lower_char c) (lower rest)
  end.

Fixpoint every (holds : ascii -> bool) (s : string) : bool :=
  match s with
  | EmptyString => true
  | String c rest => holds c && every holds rest
  end.

Definition digit_or_minus (c : ascii) : bool :=
  let n := nat_of_ascii c in
  ((48 <=? n) && (n <=? 57))%nat || Ascii.eqb c "-".

(** A text of digits and minus signs, not empty: the decimal form of a key
    is one. *)
Definition numeral (p : string) : bool :=
  negb (String.eqb p "") && every digit_or_minus p.

Section ReadBack.

(** [decodeURIComponent], or nothing when it throws. *)
Variable decodeURIComponent : string -> option string.

(** What GET /signout/:id has as [req.params.id] when the address
    requested is the sign-out address followed by [rest].  The path ends
    at the first [?] or [#]; one slash at its end is allowed; what is left
    has to be one segment, not empty; the route of the card, which comes
    first in the router, takes the segment [card] in any case of letters;
    the segment is decoded. *)
Definition signout_param (rest : string) : option string :=
  let path := up_to (fun c => Ascii.eqb c "?" || Ascii.eqb c "#") rest in
  let segment := chop_slash path in
  if String.eqb segment "" then None
  else if negb (every (fun c => negb (Ascii.eqb c "/")) segment) then None
  else if String.eqb (lower segment) "card" then None
  else decodeURIComponent segment.

(** The id a sign-out gets when the text of a card is requested as it
    stands; nothing for a text that is no address under the sign-out
    path as the card writes it. *)
Definition read_back (url : string) : option string :=
  match Text.strip_prefix "http://localhost:3001/api/visitors/signout/" url with
  | Some rest => signout_param rest
  | None => None
  end.

Variable scan : string -> option string.

(** Scanning a card and following it. *)
Definition read_token (qr : string) : option string :=
  match scan qr with
  | Some url => read_back url
  | None => None
  end.

End ReadBack.

(** ** A sample engine and sample bodies of other shapes *)

Module Sample3.

Definition number_of (l : literal) : option Z :=
  match l with
  | lit_null => None
  | lit_true => Some 1
  | lit_false => Some 0
  | lit_number printed => Text.Z_of_string printed
  | lit_quoted s => Text.Z_of_string s
  end.

(** The identifiers of the columns, in lower case as the router writes
    them. *)
Definition column_named (name : string) : option Target :=
  if String.eqb name "id" then Some t_id
  else if String.eqb name "status" then Some t_status
  else if String.eqb name "qr_status" then Some t_qr_status
  else if String.eqb name "first_name" then Some (t_column c_first_name)
  else if String.eqb name "last_name" then Some (t_column c_last_name)
  else if String.eqb name "email" then Some (t_column c_email)
  else if String.eqb name "phone" then Some (t_column c_phone)
  else if String.eqb name "gender" then Some (t_column c_gender)
  else if String.eqb name "company_id" then Some (t_column c_company_id)
  else if String.eqb name "department_id" then Some (t_column c_department_id)
  else if String.eqb name "designation_id"
       then Some (t_column c_designation_id)
  else if String.eqb name "whom_to_meet" then Some (t_column c_whom_to_meet)
  else if String.eqb name "purpose" then Some (t_column c_purpose)
  else if String.eqb name "aadhar_no" then Some (t_column c_aadhar_no)
  else if String.eqb name "address" then Some (t_column c_address)
  else if String.eqb name "image" then Some (t_column c_image)
  else None.

Definition truth (b : bool) : literal := if b then lit_true else lit_false.

(** A comparison with NULL on either side is NULL. *)
Definition equals (r : Visitor) (t : Target) (l : literal) : literal :=
  match t with
  | t_column c =>
      match get_column c r, text_of_literal l with
      | Some a, Some b => truth (String.eqb a b)
      | _, _ => lit_null
      end
  | t_qr_status =>
      match text_of_literal l with
      | Some b => truth (String.eqb (qr_status r) b)
      | None => lit_null
      end
  | t_status =>
      match status r, number_of l with
      | Some a, Some b => truth (a =? b)
      | _, _ => lit_null
      end
  | t_id =>
      match number_of l with
      | Some b => truth (id r =? b)
      | None => lit_null
      end
  | t_other => lit_null
  end.

Definition to_id (l : literal) : Error + Z :=
  match number_of l with
  | Some k => inr k
  | None => inl "ER_TRUNCATED_WRONG_VALUE_FOR_FIELD"
  end.

Definition to_status (l : literal) : Error + option Z :=
  match l with
  | lit_null => inr None
  | _ =>
      match number_of l with
      | Some k => inr (Some k)
      | None => inl "ER_TRUNCATED_WRONG_VALUE_FOR_FIELD"
      end
  end.

Definition to_qr_status (l : literal) : Error + string :=
  match l with
  | lit_quoted s => inr s
  | _ => inl "WARN_DATA_TRUNCATED"
  end.

Definition engine : Engine :=
  mkEngine Sample.key_eq Sample.default_status column_named equals
           to_id to_status to_qr_status.

Definition said (s : string) : jsval := js_scalar (js_string s).

(** The body of a multipart request with eleven fields of text and the
    two fields [address[first_name]=x] and [address[qr_status]=unused]. *)
Definition crafted : Body :=
  mkBody (said "Asha") (said "Rao") (said "asha@example.org")
         (said "555-0100") (said "Female") (said "1") (said "2") (said "3")
         (said "7") (said "Audit") (said "123412341234")
         (js_object [("first_name", js_string "x");
                     ("qr_status", js_string "unused")]).

(** The same with [address[status]=5], [address[id]=99] and
    [address[image]=z.png] between the two. *)
Definition crafted_more : Body :=
  mkBody (said "Asha") (said "Rao") (said "asha@example.org")
         (said "555-0100") (said "Female") (said "1") (said "2") (said "3")
         (said "7") (said "Audit") (said "123412341234")
         (js_object [("first_name", js_string "x");
                     ("status", js_string "5");
                     ("id", js_string "99");
                     ("image", js_string "z.png");
                     ("qr_status", js_string "unused")]).

(** A row with the eleven texts of the bodies above. *)
Definition asha (key : Z) (address image : text) (st : option Z)
           (qr : string) : Visitor :=
  mkVisitor key (Some "Asha") (Some "Rao") (Some "asha@example.org")
            (Some "555-0100") (Some "Female") (Some "1") (Some "2")
            (Some "3") (Some "7") (Some "Audit") (Some "123412341234")
            address image st qr.

Definition scalars : Scalars :=
  mkScalars (js_string "Asha") (js_string "Rao") js_undefined
            (js_string "555-0100") js_null (js_number "1") (js_number "2")
            js_undefined (js_string "7") (js_string "Audit") js_undefined
            (js_boolean false).

Definition store : Store := store_of Sample.db.

Definition update_any := put_visitor_any engine.
Definition serve_any_all := serve_any engine Sample.encoder.

(** A stand-in for [decodeURIComponent] on texts without an escape. *)
Definition decode (s : string) : option string :=
  if every (fun c => negb (Ascii.eqb c "%")) s then Some s else None.

Definition read_card := read_token decode Sample.scanner.

(** Requests of every kind aimed at visitor 41, the updates with bodies
    of scalars. *)
Definition traffic : list (option Error * RequestAny) :=
  [ (None, Typed (PUT_status "41"));
    (None, PUT_visitor_any "41" (plain scalars) (Some "1700000000000.png"));
    (None, Typed (GET_card "41"));
    (Some "ER_LOCK_WAIT_TIMEOUT", Typed (GET_signout "41"));
    (None, Typed (POST_visitor Sample.form None));
    (None, Typed (PUT_visitor "41" Sample.form None));
    (None, Typed (GET_signout "41"));
    (None, Typed (GET_visitors)) ].

End Sample3.

(** * Properties *)

(** ** Texts *)

Lemma strip_prefix_app (pre s : string) :
  Text.strip_prefix pre (pre ++ s)%string = Some s.
Proof.
  induction pre as [|a pre IH]; simpl.
  - reflexivity.
  - rewrite Ascii.eqb_refl. exact IH.
Qed.

Lemma strip_prefix_sound (pre s rest : string) :
  Text.strip_prefix pre s = Some rest -> s = (pre ++ rest)%string.
Proof.
  revert s. induction pre as [|a pre IH]; intros s; simpl.
  - intros [= ->]. reflexivity.
  - destruct s as [|b s']; [discriminate|].
    destruct (Ascii.eqb_spec a b) as [->|]; [|discriminate].
    intros H. now rewrite (IH _ H).
Qed.

Lemma to_int_not_nil (n : Z) :
  Z.to_int n <> Decimal.Pos Decimal.Nil /\ Z.to_int n <> Decimal.Neg Decimal.Nil.
Proof.
  destruct n as [|p|p]; simpl; split; try discriminate;
    intros [= H]; now apply (Unsigned.to_uint_nonnil p).
Qed.

Lemma Z_of_string_of_Z (n : Z) : Text.Z_of_string (Text.string_of_Z n) = Some n.
Proof.
  unfold Text.Z_of_string, Text.string_of_Z.
  destruct (to_int_not_nil n) as [Hp Hn].
  rewrite NilZero.isi by assumption. simpl.
  now rewrite DecimalZ.of_to.
Qed.

(** ** Rows and [SET] lists *)

Lemma id_assign (a : Assignment) (r : Visitor) : id (assign a r) = id r.
Proof. destruct a as [c v| |]; destruct r; try destruct c; reflexivity. Qed.

Lemma id_assign_all (sets : list Assignment) (r : Visitor) :
  id (assign_all sets r) = id r.
Proof.
  unfold assign_all. revert r.
  induction sets as [|a sets IH]; intros r; simpl; [reflexivity|].
  rewrite IH. apply id_assign.
Qed.

Lemma qr_status_assign_all (sets : list Assignment) (r : Visitor) :
  existsb writes_qr_status sets = false ->
  qr_status (assign_all sets r) = qr_status r.
Proof.
  unfold assign_all. revert r.
  induction sets as [|a sets IH]; intros r; simpl; [reflexivity|].
  intros H. apply orb_false_iff in H as [Ha Hs].
  rewrite (IH _ Hs).
  destruct a as [c v| |]; try discriminate; destruct r; try destruct c;
    reflexivity.
Qed.

Lemma status_assign_all (sets : list Assignment) (r : Visitor) :
  existsb writes_status sets = false ->
  status (assign_all sets r) = status r.
Proof.
  unfold assign_all. revert r.
  induction sets as [|a sets IH]; intros r; simpl; [reflexivity|].
  intros H. apply orb_false_iff in H as [Ha Hs].
  rewrite (IH _ Hs).
  destruct a as [c v| |]; try discriminate; destruct r; try destruct c;
    reflexivity.
Qed.

Lemma column_assign_all (c : column) (sets : list Assignment) (r : Visitor) :
  existsb (writes_column c) sets = false ->
  get_column c (assign_all sets r) = get_column c r.
Proof.
  unfold assign_all. revert r.
  induction sets as [|a sets IH]; intros r; simpl; [reflexivity|].
  intros H. apply orb_false_iff in H as [Ha Hs].
  rewrite (IH _ Hs).
  destruct a as [c' v| |]; simpl in *.
  - destruct (column_eq_dec c c') as [|Hne]; [discriminate|].
    destruct r, c, c'; try reflexivity; now elim Hne.
  - now destruct r, c.
  - now destruct r, c.
Qed.

(** A [SET] list whose only literal for [qr_status] is 'used' leaves a used
    row used. *)
Lemma used_assign_all (sets : list Assignment) (r : Visitor) :
  forallb writes_only_used sets = true ->
  qr_status r = "used" ->
  qr_status (assign_all sets r) = "used".
Proof.
  unfold assign_all. revert r.
  induction sets as [|a sets IH]; intros r; simpl; [easy|].
  intros H Hr. apply andb_true_iff in H as [Ha Hs].
  apply (IH _ Hs).
  destruct a as [c v|lit|]; simpl in *.
  - rewrite <- Hr. now destruct r, c.
  - apply String.eqb_eq in Ha. subst lit. now destruct r.
  - rewrite <- Hr. now destruct r.
Qed.

Lemma sql_not_involutive (v : option Z) :
  boolean_like v = true -> sql_not (sql_not v) = v.
Proof.
  destruct v as [n|]; simpl; [|reflexivity].
  intros H. apply orb_true_iff in H as [H|H]; apply Z.eqb_eq in H; now subst.
Qed.

Lemma sql_not_boolean_like (v : option Z) : boolean_like (sql_not v) = true.
Proof. destruct v as [[|p|p]|]; reflexivity. Qed.

Lemma set_status_same (r : Visitor) : set_status (status r) r = r.
Proof. now destruct r. Qed.

Lemma set_status_twice (v w : option Z) (r : Visitor) :
  set_status v (set_status w r) = set_status v r.
Proof. now destruct r. Qed.

Lemma set_qr_status_twice (v w : string) (r : Visitor) :
  set_qr_status v (set_qr_status w r) = set_qr_status v r.
Proof. now destruct r. Qed.

Section Properties.

Variable id_eq : Z -> string -> bool.
Variable default_status : option Z.
Variable toDataURL : string -> Error + string.

Local Abbreviation where_id := (where_id id_eq).
Local Abbreviation update_row := (update_row id_eq).
Local Abbreviation select_by_id := (select_by_id id_eq).
Local Abbreviation get_signout := (get_signout id_eq default_status).
Local Abbreviation put_status := (put_status id_eq default_status).
Local Abbreviation put_visitor := (put_visitor id_eq default_status).
Local Abbreviation get_card := (get_card toDataURL).
Local Abbreviation handle := (handle id_eq default_status toDataURL).
Local Abbreviation serve := (serve id_eq default_status toDataURL).

(** *** Updates row by row *)

Lemma where_id_update_row sets p q r :
  where_id q (update_row sets p r) = where_id q r.
Proof.
  unfold update_row, where_id.
  destruct (id_eq (id r) p); [|reflexivity].
  now rewrite id_assign_all.
Qed.

Lemma filter_update sets p q t :
  filter (where_id q) (map (update_row sets p) t)
  = map (update_row sets p) (filter (where_id q) t).
Proof.
  induction t as [|r t IH]; simpl; [reflexivity|].
  rewrite where_id_update_row.
  destruct (where_id q r); simpl; now rewrite IH.
Qed.

Lemma select_update sets p q t :
  select_by_id q (map (update_row sets p) t)
  = option_map (update_row sets p) (select_by_id q t).
Proof.
  unfold select_by_id. rewrite filter_update.
  now destruct (filter (where_id q) t).
Qed.

Lemma select_where p t r : select_by_id p t = Some r -> where_id p r = true.
Proof.
  unfold select_by_id. intros H.
  assert (Hin : In r (filter (where_id p) t)).
  { destruct (filter (where_id p) t); [discriminate|].
    injection H as ->. now left. }
  now apply filter_In in Hin.
Qed.

Lemma select_none sets p t :
  select_by_id p t = None -> map (update_row sets p) t = t.
Proof.
  unfold select_by_id. intros H.
  induction t as [|r t IH]; simpl in *; [reflexivity|].
  unfold update_row at 1.
  destruct (where_id p r); [discriminate|].
  now rewrite IH.
Qed.

(** The table after the statement of a sign-out, a toggle or an update. *)
Lemma visitors_db_query_update fault sets p d :
  visitors (snd (db_query id_eq default_status fault (UPDATE sets p) d))
  = match fault with
    | Some _ => visitors d
    | None => map (update_row sets p) (visitors d)
    end.
Proof. now destruct fault. Qed.

Lemma visitors_get_signout fault id d :
  visitors (snd (get_signout fault id d))
  = match fault with
    | Some _ => visitors d
    | None => map (update_row [QrStatus "used"] id) (visitors d)
    end.
Proof. now destruct fault. Qed.

Lemma visitors_put_status fault id d :
  visitors (snd (put_status fault id d))
  = match fault with
    | Some _ => visitors d
    | None => map (update_row [NotStatus] id) (visitors d)
    end.
Proof. now destruct fault. Qed.

Lemma update_row_matching sets p r :
  where_id p r = true -> update_row sets p r = assign_all sets r.
Proof. unfold update_row. now intros ->. Qed.

Lemma signout_row_twice p r :
  update_row [QrStatus "used"] p (update_row [QrStatus "used"] p r)
  = update_row [QrStatus "used"] p r.
Proof.
  unfold update_row at 2 3.
  destruct (where_id p r) eqn:Hw.
  - rewrite update_row_matching by (cbn; now destruct r).
    cbn. apply set_qr_status_twice.
  - unfold update_row. now rewrite Hw.
Qed.

(** Every row a sign-out matched is used afterwards. *)
Lemma signout_matching_used p t r :
  In r (map (update_row [QrStatus "used"] p) t) ->
  where_id p r = true -> qr_status r = "used".
Proof.
  intros Hin Hw. apply in_map_iff in Hin as (r0 & <- & _).
  rewrite where_id_update_row in Hw.
  rewrite update_row_matching by exact Hw. now destruct r0.
Qed.

Lemma signout_select p t r :
  select_by_id p t = Some r ->
  select_by_id p (map (update_row [QrStatus "used"] p) t)
  = Some (set_qr_status "used" r).
Proof.
  intros H. rewrite select_update, H. simpl.
  now rewrite update_row_matching by (eapply select_where; eauto).
Qed.

(** *** Redemption *)

(** C1: when GET /:id finds a row for the id, a sign-out whose statement
    runs answers with the confirmation page and leaves that row with
    [qr_status] = 'used', whatever [qr_status] was before; so does every
    other row the id matches. *)
Theorem signout_marks_used id d r :
  select_by_id id (visitors d) = Some r ->
  fst (get_signout None id d) = Reply 200 (Html (signout_page id))
  /\ select_by_id id (visitors (snd (get_signout None id d)))
     = Some (set_qr_status "used" r)
  /\ qr_status (set_qr_status "used" r) = "used"
  /\ forall r', In r' (visitors (snd (get_signout None id d))) ->
                where_id id r' = true -> qr_status r' = "used".
Proof.
  intros Hsel. rewrite visitors_get_signout.
  split; [reflexivity|]. split; [now apply signout_select|].
  split; [now destruct r|].
  intros r'. apply signout_matching_used.
Qed.

(** C3: when no row matches the id, a sign-out whose statement runs still
    answers with the confirmation page, and with or without a storage
    failure the table and its counter are as before: no row is created
    or modified. *)
Theorem signout_unknown_id id d :
  select_by_id id (visitors d) = None ->
  fst (get_signout None id d) = Reply 200 (Html (signout_page id))
  /\ forall fault,
       visitors (snd (get_signout fault id d)) = visitors d
       /\ auto_increment (snd (get_signout fault id d)) = auto_increment d.
Proof.
  intros Hnone. split; [reflexivity|].
  intros fault. rewrite visitors_get_signout.
  destruct fault; simpl; split; try reflexivity.
  now apply select_none.
Qed.

(** C4: a second sign-out for the same id answers exactly as the first,
    submits the same UPDATE again, and leaves the table as the first
    sign-out left it. *)
Theorem signout_idempotent id d :
  let first := get_signout None id d in
  let second := get_signout None id (snd first) in
  fst second = fst first
  /\ fst second = Reply 200 (Html (signout_page id))
  /\ submitted (snd second)
     = submitted (snd first) ++ [UPDATE [QrStatus "used"] id]
  /\ visitors (snd second) = visitors (snd first)
  /\ auto_increment (snd second) = auto_increment (snd first).
Proof.
  cbn zeta. rewrite !visitors_get_signout.
  repeat split.
  rewrite map_map. apply map_ext. intros r. apply signout_row_twice.
Qed.

(** *** The check-in flag *)

Lemma toggle_row_twice p r :
  (where_id p r = true -> boolean_like (status r) = true) ->
  update_row [NotStatus] p (update_row [NotStatus] p r) = r.
Proof.
  intros Hflag. unfold update_row at 2.
  destruct (where_id p r) eqn:Hw.
  - rewrite update_row_matching by (cbn; now destruct r).
    cbn. replace (status (set_status (sql_not (status r)) r))
      with (sql_not (status r)) by now destruct r.
    rewrite set_status_twice, sql_not_involutive by now apply Hflag.
    apply set_status_same.
  - unfold update_row. now rewrite Hw.
Qed.

Lemma toggle_row_qr_status p r :
  qr_status (update_row [NotStatus] p r) = qr_status r.
Proof. unfold update_row. destruct (where_id p r); now destruct r. Qed.


(** Whatever [status] held, a toggle leaves a flag in the rows it
    matched, so from the first toggle on the flag alternates. *)
Lemma toggle_makes_flag p t r :
  In r (map (update_row [NotStatus] p) t) ->
  where_id p r = true -> boolean_like (status r) = true.
Proof.
  intros Hin Hw. apply in_map_iff in Hin as (r0 & <- & _).
  rewrite where_id_update_row in Hw.
  rewrite update_row_matching by exact Hw. cbn.
  replace (status (set_status (sql_not (status r0)) r0))
    with (sql_not (status r0)) by now destruct r0.
  apply sql_not_boolean_like.
Qed.

(** *** Issuing a card *)

Lemma get_card_db id d : snd (get_card id d) = d.
Proof. unfold get_card. now destruct (toDataURL (qrText id)). Qed.

(** C7: a card request returns the connection as it got it: no row, no
    counter and no submitted statement differs. *)
Theorem card_no_side_effect id d :
  snd (get_card id d) = d
  /\ visitors (snd (get_card id d)) = visitors d
  /\ submitted (snd (get_card id d)) = submitted d.
Proof. now rewrite get_card_db. Qed.

(** C8: a sign-out reports a failure exactly when its statement failed,
    and then it sends the error with status 500, has submitted this one
    statement and no other, and has left the table alone; a card request
    reports a failure exactly when the encoder failed, and then it sends
    that error with status 500 and has submitted nothing. *)
Theorem failures_surface fault id d :
  (is_failure (fst (get_signout fault id d)) = true <-> fault <> None)
  /\ (forall err, fault = Some err ->
        get_signout fault id d
        = (Reply 500 (ErrorObject err),
           mkDb (visitors d) (auto_increment d)
                (submitted d ++ [UPDATE [QrStatus "used"] id])))
  /\ submitted (snd (get_signout fault id d))
     = submitted d ++ [UPDATE [QrStatus "used"] id]
  /\ (is_failure (fst (get_card id d)) = true
      <-> exists err, toDataURL (qrText id) = inl err)
  /\ (forall err, toDataURL (qrText id) = inl err ->
        get_card id d = (Reply 500 (ErrorObject err), d))
  /\ (forall qr, toDataURL (qrText id) = inr qr ->
        get_card id d = (Reply 200 (JsonQr qr), d)).
Proof.
  repeat split.
  - destruct fault; [discriminate|]. cbn. discriminate.
  - destruct fault; [reflexivity|]. intros H. now elim H.
  - intros err ->. reflexivity.
  - now destruct fault.
  - unfold get_card. destruct (toDataURL (qrText id)) as [err|qr].
    + intros _. now exists err.
    + cbn. discriminate.
  - intros [err H]. unfold get_card. now rewrite H.
  - intros err H. unfold get_card. now rewrite H.
  - intros qr H. unfold get_card. now rewrite H.
Qed.

(** *** Updating a visitor *)

Lemma Forall2_map_self {A : Type} (R : A -> A -> Prop) (f : A -> A) (l : list A) :
  (forall a, R a (f a)) -> Forall2 R l (map f l).
Proof. intros H. induction l; simpl; constructor; auto. Qed.

Lemma visitors_put_visitor fault id body file d :
  visitors (snd (put_visitor fault id body file d))
  = match fault with
    | Some _ => visitors d
    | None => map (update_row (put_visitor_sets body file) id) (visitors d)
    end.
Proof. now destruct fault. Qed.

Lemma put_visitor_sets_frame body file :
  existsb writes_qr_status (put_visitor_sets body file) = false
  /\ existsb writes_status (put_visitor_sets body file) = false
  /\ (truthy file = false ->
      existsb (writes_column c_image) (put_visitor_sets body file) = false).
Proof.
  unfold put_visitor_sets.
  destruct (truthy file); repeat split; try reflexivity. discriminate.
Qed.

(** For a body of texts: an update, whatever its id, fields and file and
    whether or not its statement runs, keeps the rows in place and leaves
    [id], [qr_status] and [status] of each as they were; [image] too when
    the request has no file (or a file whose stored name is empty). *)
Lemma put_visitor_frame_texts fault p body file d :
  Forall2 (fun r r' =>
             id r' = id r
             /\ qr_status r' = qr_status r
             /\ status r' = status r
             /\ (file = None -> image r' = image r)
             /\ (truthy file = false -> image r' = image r))
          (visitors d) (visitors (snd (put_visitor fault p body file d)))
  /\ auto_increment (snd (put_visitor fault p body file d))
     = auto_increment d.
Proof.
  split; [|now destruct fault].
  rewrite visitors_put_visitor.
  destruct (put_visitor_sets_frame body file) as (Hqr & Hst & Him).
  assert (Hrow : forall r,
             let r' := update_row (put_visitor_sets body file) p r in
             id r' = id r /\ qr_status r' = qr_status r
             /\ status r' = status r
             /\ (file = None -> image r' = image r)
             /\ (truthy file = false -> image r' = image r)).
  { intros r. cbn zeta. unfold update_row.
    destruct (where_id p r); [|now repeat split].
    assert (Himg : truthy file = false ->
                   image (assign_all (put_visitor_sets body file) r)
                   = image r).
    { intros Hf.
      apply (column_assign_all c_image _ r (Him Hf)). }
    repeat split.
    - apply id_assign_all.
    - now apply qr_status_assign_all.
    - now apply status_assign_all.
    - intros ->. now apply Himg.
    - exact Himg. }
  destruct fault.
  - rewrite <- (map_id (visitors d)) at 2.
    apply Forall2_map_self. intros r. now repeat split.
  - apply Forall2_map_self. exact Hrow.
Qed.

(** *** No way back to 'unused' *)

Lemma used_update_row sets p r :
  forallb writes_only_used sets = true ->
  qr_status r = "used" ->
  id (update_row sets p r) = id r
  /\ qr_status (update_row sets p r) = "used".
Proof.
  intros Hsets Hr. unfold update_row.
  destruct (where_id p r); [|easy].
  split; [apply id_assign_all|now apply used_assign_all].
Qed.

Lemma put_visitor_sets_used body file :
  forallb writes_only_used (put_visitor_sets body file) = true.
Proof. unfold put_visitor_sets. now destruct (truthy file). Qed.

(** The table after any one request: as before, updated in place by a
    [SET] list that writes no other literal than 'used' to [qr_status],
    or longer by one row. *)
Lemma visitors_handle fault req d :
  visitors (snd (handle fault req d)) = visitors d
  \/ (exists sets p,
         forallb writes_only_used sets = true
         /\ visitors (snd (handle fault req d))
            = map (update_row sets p) (visitors d))
  \/ (exists row, visitors (snd (handle fault req d)) = visitors d ++ [row]).
Proof.
  destruct req as [|id|body file|id body file|id|id|id]; unfold handle.
  - left. now destruct fault.
  - left. now destruct fault.
  - destruct fault as [err|]; [now left|].
    right; right. eexists. unfold post_visitor, db_query. cbn.
    destruct (toDataURL _); reflexivity.
  - destruct fault as [err|]; [now left|].
    right; left. exists (put_visitor_sets body file), id.
    split; [apply put_visitor_sets_used|reflexivity].
  - destruct fault as [err|]; [now left|].
    right; left. now exists [NotStatus], id.
  - left. now rewrite get_card_db.
  - destruct fault as [err|]; [now left|].
    right; left. now exists [QrStatus "used"], id.
Qed.

Lemma used_stays_used_step fault req d i r :
  nth_error (visitors d) i = Some r ->
  qr_status r = "used" ->
  exists r', nth_error (visitors (snd (handle fault req d))) i = Some r'
             /\ id r' = id r /\ qr_status r' = "used".
Proof.
  intros Hi Hr.
  destruct (visitors_handle fault req d) as [->|[(sets & p & Hs & ->)|[row ->]]].
  - now exists r.
  - exists (update_row sets p r). split.
    + now apply map_nth_error.
    + now apply used_update_row.
  - exists r. split; [|easy].
    rewrite nth_error_app1; [exact Hi|].
    apply nth_error_Some. now rewrite Hi.
Qed.

(** For bodies of texts: a row whose [qr_status] is 'used' is, after any
    sequence of requests, whatever their parameters and whichever of their
    statements fail, still in its place with the same [id] and with
    [qr_status] = 'used'. *)
Lemma used_stays_used_texts reqs d i r :
  nth_error (visitors d) i = Some r ->
  qr_status r = "used" ->
  exists r', nth_error (visitors (serve reqs d)) i = Some r'
             /\ id r' = id r
             /\ qr_status r' = "used"
             /\ qr_status r' <> "unused".
Proof.
  revert d r. induction reqs as [|[fault req] reqs IH]; intros d r Hi Hr.
  - exists r. repeat split; try easy. rewrite Hr. discriminate.
  - destruct (used_stays_used_step fault req d i r Hi Hr)
      as (r1 & Hi1 & Hid1 & Hr1).
    destruct (IH _ _ Hi1 Hr1) as (r' & Hi' & Hid' & Hr' & Hne).
    exists r'. cbn. repeat split; try assumption.
    now rewrite Hid'.
Qed.

(** *** The check-in flag stays a flag *)

Lemma flag_assign_all sets r :
  boolean_like (status r) = true ->
  boolean_like (status (assign_all sets r)) = true.
Proof.
  unfold assign_all. revert r.
  induction sets as [|a sets IH]; intros r Hr; simpl; [exact Hr|].
  apply IH. destruct a as [c v|lit|]; simpl.
  - rewrite <- Hr. now destruct r, c.
  - rewrite <- Hr. now destruct r.
  - replace (status (set_status (sql_not (status r)) r))
      with (sql_not (status r)) by now destruct r.
    apply sql_not_boolean_like.
Qed.

(** When the column default is a flag, every request keeps every
    [status] of the table a flag: NULL, 0 or 1. *)
Lemma handle_keeps_flags fault req d :
  boolean_like default_status = true ->
  Forall (fun r => boolean_like (status r) = true) (visitors d) ->
  Forall (fun r => boolean_like (status r) = true)
         (visitors (snd (handle fault req d))).
Proof.
  intros Hdef Hd.
  assert (Hupd : forall sets p,
             Forall (fun r => boolean_like (status r) = true)
                    (map (update_row sets p) (visitors d))).
  { intros sets p. apply Forall_map. revert Hd. apply Forall_impl.
    intros r Hr. unfold update_row.
    destruct (where_id p r); [now apply flag_assign_all|exact Hr]. }
  destruct req as [|p|body file|p body file|p|p|p], fault as [err|];
    unfold handle; try exact Hd; try apply Hupd.
  - unfold post_visitor, db_query. cbn.
    replace (visitors (snd _)) with
      (visitors d ++ [insert_row default_status (auto_increment d)
                        (descriptive_columns ++ [c_image])
                        (values body ++ [if truthy file then file else None])])
      by now destruct (toDataURL _).
    apply Forall_app. split; [exact Hd|].
    constructor; [|constructor].
    unfold insert_row. now apply flag_assign_all.
  - now rewrite get_card_db.
  - now rewrite get_card_db.
Qed.

(** *** What a card holds *)

Lemma embedded_id_qrText (p : string) : embedded_id (qrText p) = Some p.
Proof. apply strip_prefix_app. Qed.


(** *** Two sign-outs in flight *)

Local Abbreviation step := (step id_eq default_status toDataURL).
Local Abbreviation run := (run id_eq default_status toDataURL).

Lemma step_inv fault c c' :
  step fault c c' ->
  exists before req after,
    tasks c = before ++ Pending req :: after
    /\ c' = mkConfig (snd (handle fault req (store c)))
                     (before ++ Answered (fst (handle fault req (store c)))
                             :: after).
Proof. intros [d before req after]. now exists before, req, after. Qed.

Lemma pending_among_two before req after (a b : Task) :
  [a; b] = before ++ Pending req :: after ->
  (before = [] /\ a = Pending req /\ after = [b])
  \/ (before = [a] /\ b = Pending req /\ after = []).
Proof.
  destruct before as [|x [|y [|z before]]]; simpl; intros H.
  - left. now injection H as -> <-.
  - right. now injection H as -> -> <-.
  - discriminate.
  - discriminate.
Qed.

Lemma run_inv faults c c'' :
  run faults c c'' ->
  match faults with
  | [] => c'' = c
  | fault :: rest => exists c', step fault c c' /\ run rest c' c''
  end.
Proof. intros [c0|fault fs c0 c1 c2 Hstep Hrun]; eauto. Qed.

Lemma step_needs_pending fault c c' :
  step fault c c' -> forallb answered (tasks c) = false.
Proof.
  intros Hstep.
  apply step_inv in Hstep as (before & req & after & -> & _).
  rewrite forallb_app. cbn. apply andb_false_r.
Qed.

Lemma run_all_answered faults c c' :
  run faults c c' -> forallb answered (tasks c) = true ->
  faults = [] /\ c' = c.
Proof.
  intros Hrun Hall. apply run_inv in Hrun.
  destruct faults as [|fault rest]; [easy|].
  destruct Hrun as (c1 & Hstep & _).
  apply step_needs_pending in Hstep. congruence.
Qed.

(** C9: take two sign-outs for the same id in flight at once.  In every
    run that answers both and meets no storage failure, in whichever
    order the connection takes them, both are answered with the
    confirmation page, neither with anything else, and every row the id
    matches ends with [qr_status] = 'used'. *)
Theorem concurrent_signout faults p d c :
  run faults
      (mkConfig d [Pending (GET_signout p); Pending (GET_signout p)]) c ->
  forallb answered (tasks c) = true ->
  Forall (fun fault => fault = None) faults ->
  tasks c = [Answered (Reply 200 (Html (signout_page p)));
             Answered (Reply 200 (Html (signout_page p)))]
  /\ (forall r, In r (visitors (store c)) -> where_id p r = true ->
                qr_status r = "used")
  /\ (forall r, select_by_id p (visitors d) = Some r ->
                select_by_id p (visitors (store c))
                = Some (set_qr_status "used" r)).
Proof.
  intros Hrun Hall Hok.
  assert (Hend : tasks c = [Answered (Reply 200 (Html (signout_page p)));
                            Answered (Reply 200 (Html (signout_page p)))]
                 /\ visitors (store c)
                    = map (update_row [QrStatus "used"] p) (visitors d)).
  { apply run_inv in Hrun.
    destruct faults as [|f1 faults]; [now subst c|].
    destruct Hrun as (c1 & Hstep1 & Hrun).
    apply Forall_cons_iff in Hok as [-> Hok].
    apply step_inv in Hstep1 as (before & req & after & Ht & ->).
    apply run_inv in Hrun.
    destruct faults as [|f2 faults];
      [subst c|destruct Hrun as (c2 & Hstep2 & Hrun);
               apply Forall_cons_iff in Hok as [-> Hok];
               apply step_inv in Hstep2
                 as (before2 & req2 & after2 & Ht2 & ->)];
      apply pending_among_two in Ht
        as [(-> & [= <-] & ->)|(-> & [= <-] & ->)];
      try discriminate;
      cbn in Ht2;
      apply pending_among_two in Ht2
        as [(-> & Hreq & ->)|(-> & Hreq & ->)];
      try discriminate; injection Hreq as <-;
      apply run_all_answered in Hrun as [_ ->]; try reflexivity;
      cbn -[map]; (split; [reflexivity|]);
      rewrite map_map; apply map_ext; intros r; apply signout_row_twice. }
  destruct Hend as [Htasks Hrows]. split; [exact Htasks|].
  rewrite Hrows. split.
  - intros r. apply signout_matching_used.
  - intros r. apply signout_select.
Qed.

End Properties.

(** ** The properties on the sample server *)

Lemma sample_codec (url qr : string) :
  Sample.encoder url = inr qr -> Sample.scanner qr = Some url.
Proof.
  unfold Sample.encoder, Sample.scanner.
  destruct (String.length url <=? 64)%nat; [|discriminate].
  intros [= <-]. exact (strip_prefix_app "data:image/png;base64," url).
Qed.

Lemma signout_marks_used_witness :
  Sample.select "42" (visitors Sample.db)
  = Some (Sample.blank 42 (Some 0) "unused")
  /\ Sample.select "42" (visitors (snd (Sample.signout None "42" Sample.db)))
     = Some (Sample.blank 42 (Some 0) "used").
Proof.
  split; [reflexivity|].
  exact (proj1 (proj2 (signout_marks_used
                         Sample.key_eq Sample.default_status "42" Sample.db
                         (Sample.blank 42 (Some 0) "unused") eq_refl))).
Defined.

Lemma signout_unknown_id_witness :
  Sample.select "7" (visitors Sample.db) = None
  /\ fst (Sample.signout None "7" Sample.db)
     = Reply 200 (Html (signout_page "7"))
  /\ visitors (snd (Sample.signout None "7" Sample.db)) = visitors Sample.db.
Proof.
  split; [reflexivity|].
  destruct (signout_unknown_id Sample.key_eq Sample.default_status
                               "7" Sample.db eq_refl) as [Hpage Hsame].
  split; [exact Hpage|]. exact (proj1 (Hsame None)).
Defined.


Lemma concurrent_signout_witness :
  let page := Reply 200 (Html (signout_page "42")) in
  let c := mkConfig
             (snd (Sample.signout None "42"
                     (snd (Sample.signout None "42" Sample.db))))
             [Answered page; Answered page] in
  run Sample.key_eq Sample.default_status Sample.encoder [None; None]
      (mkConfig Sample.db
                [Pending (GET_signout "42"); Pending (GET_signout "42")]) c
  /\ tasks c = [Answered page; Answered page]
  /\ Sample.select "42" (visitors (store c))
     = Some (Sample.blank 42 (Some 0) "used").
Proof.
  intros page c.
  assert (Hrun : run Sample.key_eq Sample.default_status Sample.encoder
                     [None; None]
                     (mkConfig Sample.db
                               [Pending (GET_signout "42");
                                Pending (GET_signout "42")]) c).
  { eapply run_next.
    - exact (step_serve Sample.key_eq Sample.default_status Sample.encoder
                        None Sample.db
                        [Pending (GET_signout "42")] (GET_signout "42") []).
    - eapply run_next; [|apply run_stop].
      exact (step_serve Sample.key_eq Sample.default_status Sample.encoder
                        None _ [] (GET_signout "42") [Answered page]). }
  split; [exact Hrun|].
  destruct (concurrent_signout
              Sample.key_eq Sample.default_status Sample.encoder
              [None; None] "42" Sample.db c Hrun eq_refl)
    as (Htasks & _ & Hsel).
  - repeat constructor.
  - split; [exact Htasks|].
    exact (Hsel (Sample.blank 42 (Some 0) "unused") eq_refl).
Defined.

(** ** The handlers run on the sample server *)

Example sample_signout_response :
  fst (Sample.signout None "42" Sample.db)
  = Reply 200 (Html "<h2>Visitor ID 42 signed out successfully. QR is now invalid.</h2>").
Proof. reflexivity. Qed.

Example sample_signout_failure :
  Sample.signout (Some "ECONNRESET") "42" Sample.db
  = (Reply 500 (ErrorObject "ECONNRESET"),
     mkDb (visitors Sample.db) 43 [UPDATE [QrStatus "used"] "42"]).
Proof. reflexivity. Qed.

Example sample_toggle :
  map status (visitors (snd (Sample.toggle None "42" Sample.db)))
  = [Some 1; Some 1].
Proof. reflexivity. Qed.

Example sample_create :
  fst (Sample.create None Sample.form None Sample.db)
  = Reply 200 (JsonVisitorQr 43
      "data:image/png;base64,http://localhost:3001/api/visitors/signout/43").
Proof. reflexivity. Qed.

Example sample_update_keeps_image :
  map image (visitors (snd (Sample.update None "42" Sample.form None
                                          Sample.photo_db)))
  = [Some "1700000000000.png"].
Proof. reflexivity. Qed.

Example sample_card_too_long :
  is_failure (fst (Sample.card "4242424242424242424242" Sample.db)) = true.
Proof. reflexivity. Qed.

(** Outside the flag values two toggles do not give the value back: a
    [status] of 2 becomes 0 and then 1.  No request writes such a value. *)
Example sample_toggle_outside_flags :
  map status
      (visitors (snd (Sample.toggle None "5"
                        (snd (Sample.toggle None "5"
                                (mkDb [Sample.blank 5 (Some 2) "unused"] 6 []))))))
  = [Some 1].
Proof. reflexivity. Qed.

(** * More properties of the visitors router *)

Lemma string_of_Z_not_empty (n : Z) : Text.string_of_Z n <> EmptyString.
Proof.
  unfold Text.string_of_Z.
  destruct (Z.to_int n) as [d|d]; simpl; [|discriminate].
  destruct d; simpl; discriminate.
Qed.

Lemma append_not_empty (a b : string) :
  a <> EmptyString -> (a ++ b)%string <> EmptyString.
Proof. destruct a; [easy|discriminate]. Qed.

Lemma put_sets_row (body : Form) (file : option string) (r : Visitor) :
  assign_all (put_visitor_sets body file) r
  = mkVisitor (id r) (f_first_name body) (f_last_name body) (f_email body)
              (f_phone body) (f_gender body) (f_company_id body)
              (f_department_id body) (f_designation_id body)
              (f_whom_to_meet body) (f_purpose body) (f_aadhar_no body)
              (f_address body) (if truthy file then file else image r)
              (status r) (qr_status r).
Proof.
  unfold put_visitor_sets. destruct r. now destruct (truthy file).
Qed.

Section MoreProperties.

Variable id_eq : Z -> string -> bool.
Variable default_status : option Z.
Variable toDataURL : string -> Error + string.

Local Abbreviation where_id := (where_id id_eq).
Local Abbreviation update_row := (update_row id_eq).
Local Abbreviation select_by_id := (select_by_id id_eq).
Local Abbreviation get_visitors := (get_visitors id_eq default_status).
Local Abbreviation get_visitor := (get_visitor id_eq default_status).
Local Abbreviation get_signout := (get_signout id_eq default_status).
Local Abbreviation put_status := (put_status id_eq default_status).
Local Abbreviation put_visitor := (put_visitor id_eq default_status).
Local Abbreviation post_visitor := (post_visitor id_eq default_status toDataURL).
Local Abbreviation get_card := (get_card toDataURL).
Local Abbreviation handle := (handle id_eq default_status toDataURL).
Local Abbreviation serve := (serve id_eq default_status toDataURL).

(** ** Failures of the other handlers *)

(** X1: every handler that calls [db.query] treats a failed call as the
    sign-out does: it answers 500 with the error object, and the table and
    its counter are as before.  A card request is the one that cannot fail
    this way. *)
Theorem storage_failure_surfaces err req d :
  queries req = 1%nat ->
  fst (handle (Some err) req d) = Reply 500 (ErrorObject err)
  /\ visitors (snd (handle (Some err) req d)) = visitors d
  /\ auto_increment (snd (handle (Some err) req d)) = auto_increment d.
Proof.
  destruct req; cbn; try discriminate; intros _; now repeat split.
Qed.

(** ** Updating and reading back *)

Lemma get_visitor_answer p d :
  fst (get_visitor None p d)
  = Reply 200 (JsonRow (select_by_id p (visitors d))).
Proof. reflexivity. Qed.

(** For a body of texts: after an update whose statement ran, GET /:id
    for the same id answers with the row it answered with before, in which
    the twelve descriptive columns hold the fields of the body, [image]
    the stored file name if a file came and its old value otherwise, and
    [id], [status] and [qr_status] are as before. *)
Lemma read_back_texts p body file d r :
  select_by_id p (visitors d) = Some r ->
  fst (get_visitor None p (snd (put_visitor None p body file d)))
  = Reply 200 (JsonRow (Some
      (mkVisitor (id r) (f_first_name body) (f_last_name body)
                 (f_email body) (f_phone body) (f_gender body)
                 (f_company_id body) (f_department_id body)
                 (f_designation_id body) (f_whom_to_meet body)
                 (f_purpose body) (f_aadhar_no body) (f_address body)
                 (if truthy file then file else image r)
                 (status r) (qr_status r)))).
Proof.
  intros Hsel. rewrite get_visitor_answer, visitors_put_visitor.
  rewrite select_update, Hsel. cbn [option_map].
  rewrite update_row_matching by (eapply select_where; eauto).
  now rewrite put_sets_row.
Qed.

Lemma put_row_overwrites body1 file1 body2 file2 p r :
  truthy file2 = true \/ truthy file1 = false ->
  update_row (put_visitor_sets body2 file2) p
             (update_row (put_visitor_sets body1 file1) p r)
  = update_row (put_visitor_sets body2 file2) p r.
Proof.
  intros Hfile. unfold update_row at 2 3.
  destruct (where_id p r) eqn:Hw.
  - rewrite update_row_matching
      by (unfold where_id; now rewrite id_assign_all).
    rewrite !put_sets_row. cbn.
    destruct Hfile as [->| ->]; [reflexivity|].
    reflexivity.
  - unfold update_row. now rewrite Hw.
Qed.

(** For bodies of texts: two updates of the same id leave the table as
    the second alone would, unless only the first brought a file. *)
Lemma last_wins_texts p body1 file1 body2 file2 d :
  truthy file2 = true \/ truthy file1 = false ->
  visitors (snd (put_visitor None p body2 file2
                   (snd (put_visitor None p body1 file1 d))))
  = visitors (snd (put_visitor None p body2 file2 d)).
Proof.
  intros Hfile. rewrite !visitors_put_visitor, map_map.
  apply map_ext. intros r. now apply put_row_overwrites.
Qed.


(** ** The writers side by side *)

Lemma update_row_comm sets1 sets2 p q r :
  (forall r, assign_all sets1 (assign_all sets2 r)
             = assign_all sets2 (assign_all sets1 r)) ->
  update_row sets1 p (update_row sets2 q r)
  = update_row sets2 q (update_row sets1 p r).
Proof.
  intros Hcomm. unfold update_row, where_id.
  destruct (id_eq (id r) q) eqn:Hq, (id_eq (id r) p) eqn:Hp;
    rewrite ?id_assign_all, ?Hq, ?Hp; auto.
Qed.

Lemma signout_toggle_rows r :
  assign_all [QrStatus "used"] (assign_all [NotStatus] r)
  = assign_all [NotStatus] (assign_all [QrStatus "used"] r).
Proof. now destruct r. Qed.

Lemma signout_put_rows body file r :
  assign_all [QrStatus "used"] (assign_all (put_visitor_sets body file) r)
  = assign_all (put_visitor_sets body file) (assign_all [QrStatus "used"] r).
Proof. rewrite !put_sets_row. now destruct r. Qed.

Lemma toggle_put_rows body file r :
  assign_all [NotStatus] (assign_all (put_visitor_sets body file) r)
  = assign_all (put_visitor_sets body file) (assign_all [NotStatus] r).
Proof. rewrite !put_sets_row. now destruct r. Qed.

(** For a body of texts: a sign-out, a toggle and an update leave the
    same table in either order. *)
Lemma writers_commute_texts fault1 fault2 p q body file d :
  visitors (snd (get_signout fault1 p (snd (put_status fault2 q d))))
  = visitors (snd (put_status fault2 q (snd (get_signout fault1 p d))))
  /\ visitors (snd (get_signout fault1 p
                      (snd (put_visitor fault2 q body file d))))
     = visitors (snd (put_visitor fault2 q body file
                        (snd (get_signout fault1 p d))))
  /\ visitors (snd (put_status fault1 p
                      (snd (put_visitor fault2 q body file d))))
     = visitors (snd (put_visitor fault2 q body file
                        (snd (put_status fault1 p d)))).
Proof.
  rewrite !visitors_get_signout, !visitors_put_status, !visitors_put_visitor.
  rewrite !visitors_get_signout, !visitors_put_status.
  destruct fault1, fault2; repeat split; try reflexivity;
    rewrite !map_map; apply map_ext; intros r; apply update_row_comm;
    intros r0.
  - apply signout_toggle_rows.
  - apply signout_put_rows.
  - apply toggle_put_rows.
Qed.

(** ** Rows are never removed *)

Lemma map_id_update sets p t : map id (map (update_row sets p) t) = map id t.
Proof.
  rewrite map_map. apply map_ext. intros r. unfold update_row.
  destruct (where_id p r); [apply id_assign_all|reflexivity].
Qed.

Lemma keys_after_request fault req d :
  exists extra,
    map id (visitors (snd (handle fault req d)))
    = map id (visitors d) ++ extra
    /\ (List.length extra <= if is_creation req then 1 else 0)%nat.
Proof.
  destruct req as [|p|body file|p body file|p|p|p]; unfold handle.
  - exists []. rewrite app_nil_r. now destruct fault.
  - exists []. rewrite app_nil_r. now destruct fault.
  - destruct fault as [err|].
    + exists []. rewrite app_nil_r. split; [reflexivity|cbn; lia].
    + exists [auto_increment d]. unfold post_visitor, db_query.
      cbn -[qrText Text.string_of_Z].
      destruct (toDataURL _); cbn; rewrite map_app; split;
        try reflexivity; lia.
  - exists []. rewrite app_nil_r, visitors_put_visitor.
    destruct fault; [easy|]. now rewrite map_id_update.
  - exists []. rewrite app_nil_r, visitors_put_status.
    destruct fault; [easy|]. now rewrite map_id_update.
  - exists []. now rewrite app_nil_r, get_card_db.
  - exists []. rewrite app_nil_r, visitors_get_signout.
    destruct fault; [easy|]. now rewrite map_id_update.
Qed.

(** For bodies of texts: the keys of the table, in order, are the keys
    it had, followed by at most one new key for each creation. *)
Lemma rows_never_removed_texts reqs d :
  exists extra,
    map id (visitors (serve reqs d)) = map id (visitors d) ++ extra
    /\ (List.length extra
        <= List.length (filter (fun fr => is_creation (snd fr)) reqs))%nat.
Proof.
  revert d. induction reqs as [|[fault req] reqs IH]; intros d.
  - exists []. now rewrite app_nil_r.
  - destruct (keys_after_request fault req d) as (e1 & He1 & Hl1).
    destruct (IH (snd (handle fault req d))) as (e2 & He2 & Hl2).
    exists (e1 ++ e2).     split.
    + cbn. rewrite He2, He1. now rewrite app_assoc.
    + rewrite length_app. cbn [filter snd].
      destruct (is_creation req); cbn [List.length]; lia.
Qed.

Lemma submitted_after_request fault req d :
  List.length (submitted (snd (handle fault req d)))
  = (List.length (submitted d) + queries req)%nat.
Proof.
  destruct req as [|p|body file|p body file|p|p|p]; unfold handle;
    try (destruct fault; cbn; rewrite length_app; reflexivity).
  - destruct fault; [cbn; rewrite length_app; reflexivity|].
    unfold post_visitor, db_query. cbn -[qrText Text.string_of_Z].
    destruct (toDataURL _); cbn; now rewrite length_app.
  - rewrite get_card_db. cbn. lia.
Qed.

(** X7: every handler but the card handler calls [db.query] exactly once,
    whether the call fails or not, and the card handler never: after any
    sequence of requests the statements submitted are as many more as
    there were requests other than card requests. *)
Theorem one_statement_per_request reqs d :
  List.length (submitted (serve reqs d))
  = (List.length (submitted d)
     + list_sum (map (fun fr => queries (snd fr)) reqs))%nat.
Proof.
  revert d. induction reqs as [|[fault req] reqs IH]; intros d.
  - cbn. lia.
  - change (serve ((fault, req) :: reqs) d)
      with (serve reqs (snd (handle fault req d))).
    rewrite IH, submitted_after_request.
    change (list_sum (map (fun fr => queries (snd fr)) ((fault, req) :: reqs)))
      with (queries req + list_sum (map (fun fr => queries (snd fr)) reqs))%nat.
    lia.
Qed.

(** ** Creating a visitor *)

Lemma post_visitor_db body file d :
  snd (post_visitor None body file d)
  = mkDb (visitors d
          ++ [insert_row default_status (auto_increment d)
                         (descriptive_columns ++ [c_image])
                         (values body ++ [if truthy file then file else None])])
         (auto_increment d + 1)
         (submitted d
          ++ [INSERT (descriptive_columns ++ [c_image])
                     (values body ++ [if truthy file then file else None])]).
Proof.
  unfold post_visitor, db_query. cbn -[qrText Text.string_of_Z insert_row].
  now destruct (toDataURL _).
Qed.

Lemma post_visitor_answer body file d :
  fst (post_visitor None body file d)
  = match toDataURL (qrText (Text.string_of_Z (auto_increment d))) with
    | inr qr => Reply 200 (JsonVisitorQr (auto_increment d) qr)
    | inl err => Unanswered err
    end.
Proof.
  unfold post_visitor, db_query. cbn -[qrText Text.string_of_Z insert_row].
  now destruct (toDataURL _).
Qed.

Lemma insert_row_columns key body image_value :
  id (insert_row default_status key (descriptive_columns ++ [c_image])
                 (values body ++ [image_value])) = key
  /\ map (fun c => get_column c
                     (insert_row default_status key
                                 (descriptive_columns ++ [c_image])
                                 (values body ++ [image_value])))
         (descriptive_columns ++ [c_image])
     = values body ++ [image_value].
Proof. split; reflexivity. Qed.


Lemma hd_error_none {A : Type} (l : list A) : hd_error l = None -> l = [].
Proof. now destruct l. Qed.

Section Flow.

Variable scan : string -> option string.

Hypothesis scan_toDataURL :
  forall url qr, toDataURL url = inr qr -> scan qr = Some url.

(** X9: from creation to sign-out.  Let the engine match a key with its
    own decimal form, and let no earlier row answer to the decimal form of
    the new key.  Then the id read from the image a creation answered
    with finds the created row, whose [id] is the [visitorId] of the
    answer; and a sign-out for that id marks this row 'used' and leaves
    every earlier row as it was. *)
Theorem create_scan_signout body file d visitorId qr :
  id_eq (auto_increment d) (Text.string_of_Z (auto_increment d)) = true ->
  select_by_id (Text.string_of_Z (auto_increment d)) (visitors d) = None ->
  fst (post_visitor None body file d)
  = Reply 200 (JsonVisitorQr visitorId qr) ->
  exists p row,
    decode_token scan qr = Some p
    /\ select_by_id p (visitors (snd (post_visitor None body file d)))
       = Some row
    /\ id row = visitorId
    /\ visitors (snd (post_visitor None body file d)) = visitors d ++ [row]
    /\ visitors (snd (get_signout None p
                        (snd (post_visitor None body file d))))
       = visitors d ++ [set_qr_status "used" row].
Proof.
  intros Hkey Hfresh Hanswer.
  rewrite post_visitor_answer in Hanswer.
  destruct (toDataURL (qrText (Text.string_of_Z (auto_increment d))))
    as [err|qr'] eqn:Henc; [discriminate|].
  injection Hanswer as <- <-.
  set (key := Text.string_of_Z (auto_increment d)) in *.
  set (row := insert_row default_status (auto_increment d)
                         (descriptive_columns ++ [c_image])
                         (values body
                          ++ [if truthy file then file else None])).
  assert (Hrow : where_id key row = true) by exact Hkey.
  assert (Hold : filter (where_id key) (visitors d) = [])
    by now apply hd_error_none.
  exists key, row.
  rewrite visitors_get_signout, post_visitor_db. cbn [visitors].
  repeat split.
  - unfold decode_token. rewrite (scan_toDataURL _ _ Henc).
    apply embedded_id_qrText.
  - unfold select_by_id. rewrite filter_app, Hold.
    change (hd_error ([] ++ (if where_id key row then [row] else []))
            = Some row).
    now rewrite Hrow.
  - rewrite map_app. f_equal.
    + now apply select_none.
    + change ([update_row [QrStatus "used"] key row]
              = [set_qr_status "used" row]).
      now rewrite update_row_matching by exact Hrow.
Qed.

End Flow.

(** ** Uploaded files *)

Lemma storage_filename_truthy extname now originalname :
  truthy (Some (storage_filename extname now originalname)) = true.
Proof.
  unfold truthy, storage_filename.
  destruct (String.eqb_spec
              (Text.string_of_Z now ++ extname originalname) "")
    as [Hempty|]; [|reflexivity].
  exfalso. revert Hempty. apply append_not_empty, string_of_Z_not_empty.
Qed.


End MoreProperties.

(** * The token check *)

Lemma pieces_lacks (sep : ascii) (s : string) :
  Auth.lacks sep s = true -> Auth.pieces sep s = (s, []).
Proof.
  induction s as [|c s IH]; simpl; [reflexivity|].
  intros H. apply andb_true_iff in H as [Hc Hs].
  rewrite (IH Hs). apply negb_true_iff in Hc. now rewrite Hc.
Qed.

Lemma split_lacks (sep : ascii) (s : string) :
  Auth.lacks sep s = true -> Auth.split sep s = [s].
Proof. intros H. unfold Auth.split. now rewrite pieces_lacks. Qed.

(** The first separator ends the first piece. *)
Lemma split_first_piece (sep : ascii) (a b : string) :
  Auth.lacks sep a = true ->
  Auth.split sep (a ++ String sep b)%string = a :: Auth.split sep b.
Proof.
  unfold Auth.split. induction a as [|c a IH]; simpl.
  - intros _. rewrite Ascii.eqb_refl. now destruct (Auth.pieces sep b).
  - intros H. apply andb_true_iff in H as [Hc Ha].
    specialize (IH Ha). apply negb_true_iff in Hc. rewrite Hc.
    destruct (Auth.pieces sep (a ++ String sep b)) as [first others].
    destruct (Auth.pieces sep b) as [first' others'].
    now injection IH as -> ->.
Qed.

Section TokenCheck.

Variable Claims : Type.
Variable jwt_verify : string -> option Claims.

Local Abbreviation token_of := Auth.token_of.
Local Abbreviation check_token := (Auth.check_token Claims jwt_verify).
Local Abbreviation verifyToken := (Auth.verifyToken Claims jwt_verify).

Lemma token_of_second_piece scheme tok rest :
  Auth.lacks " " scheme = true -> Auth.lacks " " tok = true ->
  token_of (Some (scheme ++ " " ++ tok)%string) = Some tok
  /\ token_of (Some (scheme ++ " " ++ tok ++ " " ++ rest)%string) = Some tok.
Proof.
  intros Hs Ht. unfold token_of. split.
  - change (scheme ++ " " ++ tok)%string
      with (scheme ++ String " " tok)%string.
    now rewrite split_first_piece, split_lacks.
  - change (scheme ++ " " ++ tok ++ " " ++ rest)%string
      with (scheme ++ String " " (tok ++ String " " rest))%string.
    now rewrite !split_first_piece.
Qed.

(** X11: with the toggle on, the check looks only at the text between the
    first and the second space of the Authorization header.  When that is
    not empty, the request goes on exactly when [jwt.verify] accepts it,
    with the decoded payload as [req.user], and is denied with 401
    "Invalid Token" otherwise; the word before the first space is not
    looked at, and neither is anything after the second. *)
Theorem check_token_second_piece scheme tok rest :
  Auth.lacks " " scheme = true ->
  Auth.lacks " " tok = true ->
  tok <> EmptyString ->
  let verdict :=
    match jwt_verify tok with
    | Some decoded => Auth.Next (Some decoded)
    | None => Auth.Denied 401 "Invalid Token"
    end in
  check_token (Some (scheme ++ " " ++ tok)%string) = verdict
  /\ check_token (Some (scheme ++ " " ++ tok ++ " " ++ rest)%string) = verdict.
Proof.
  intros Hs Ht Hne verdict.
  destruct (token_of_second_piece scheme tok rest Hs Ht) as [H1 H2].
  assert (Htruthy : truthy (Some tok) = true).
  { cbn. destruct (String.eqb_spec tok ""); [contradiction|reflexivity]. }
  unfold check_token. now rewrite H1, H2, Htruthy.
Qed.

(** X12: with the toggle on, a request with no Authorization header, with
    a header of one word, or with a header whose first space is followed
    by another space is denied with 401 "Access Denied. No token
    provided.", whatever [jwt.verify] would say.  As the toggle stands,
    [verifyToken] lets these and all other requests go on, and sets no
    [req.user]. *)
Theorem check_token_without_token header rest :
  Auth.lacks " " header = true ->
  check_token None = Auth.Denied 401 "Access Denied. No token provided."
  /\ check_token (Some header)
     = Auth.Denied 401 "Access Denied. No token provided."
  /\ check_token (Some (header ++ "  " ++ rest)%string)
     = Auth.Denied 401 "Access Denied. No token provided."
  /\ forall authorization, verifyToken authorization = Auth.Next None.
Proof.
  intros H. repeat split.
  - unfold check_token, token_of. now rewrite split_lacks.
  - unfold check_token, token_of.
    change (header ++ "  " ++ rest)%string
      with (header ++ String " " (EmptyString ++ String " " rest))%string.
    now rewrite !split_first_piece.
Qed.

End TokenCheck.

Lemma check_token_second_piece_witness :
  Auth.check_token string Sample2.jwt (Some "Bearer good.alice")
  = Auth.Next (Some "alice")
  /\ Auth.check_token string Sample2.jwt (Some "Basic bad.alice extra")
     = Auth.Denied 401 "Invalid Token".
Proof.
  split.
  - exact (proj1 (check_token_second_piece string Sample2.jwt
                    "Bearer" "good.alice" "" eq_refl eq_refl
                    ltac:(discriminate))).
  - exact (proj2 (check_token_second_piece string Sample2.jwt
                    "Basic" "bad.alice" "extra" eq_refl eq_refl
                    ltac:(discriminate))).
Defined.

Lemma check_token_without_token_witness :
  Auth.check_token string Sample2.jwt (Some "good.alice")
  = Auth.Denied 401 "Access Denied. No token provided."
  /\ Auth.check_token string Sample2.jwt (Some "Bearer  good.alice")
     = Auth.Denied 401 "Access Denied. No token provided."
  /\ Auth.verifyToken string Sample2.jwt (Some "good.alice")
     = Auth.Next None.
Proof.
  destruct (check_token_without_token string Sample2.jwt
              "good.alice" "good.alice" eq_refl) as (_ & H1 & _ & H3).
  destruct (check_token_without_token string Sample2.jwt
              "Bearer" "good.alice" eq_refl) as (_ & _ & H2 & _).
  split; [exact H1|]. split; [exact H2|]. apply H3.
Defined.

(** * The statements of the employees router *)

Lemma count_char_app (c : ascii) (a b : string) :
  Employees.count_char c (a ++ b)%string
  = (Employees.count_char c a + Employees.count_char c b)%nat.
Proof. induction a as [|x a IH]; simpl; [reflexivity|]. rewrite IH. lia. Qed.

(** A list of assignments with one placeholder each, joined by commas, has
    as many placeholders as the list is long. *)
Lemma count_char_join (updates : list string) :
  Forall (fun u => Employees.count_char "?" u = 1%nat) updates ->
  Employees.count_char "?" (Employees.join ", " updates)
  = List.length updates.
Proof.
  induction 1 as [|u rest Hu Hrest IH]; [reflexivity|].
  destruct rest as [|v rest]; [simpl; exact Hu|].
  change (Employees.join ", " (u :: v :: rest))
    with (u ++ ", " ++ Employees.join ", " (v :: rest))%string.
  rewrite !count_char_app, Hu, IH. reflexivity.
Qed.

Lemma fields_lack_placeholder :
  Forall (fun f => Employees.count_char "?" f = 0%nat) Employees.fields.
Proof. repeat constructor. Qed.

Lemma balanced_push (acc : list string * list text) (u : string) (v : text) :
  Employees.count_char "?" u = 1%nat ->
  Employees.balanced acc -> Employees.balanced (fst acc ++ [u], snd acc ++ [v]).
Proof.
  intros Hu [Hall Hlen]. split; cbn [fst snd].
  - apply Forall_app. split; [exact Hall|]. now constructor.
  - rewrite !length_app, Hlen. reflexivity.
Qed.

Lemma balanced_fold (body : Employees.Body) (l : list string)
      (acc : list string * list text) :
  Forall (fun f => Employees.count_char "?" f = 0%nat) l ->
  Employees.balanced acc -> Employees.balanced (fold_left (Employees.push_field body) l acc).
Proof.
  intros Hl. revert acc.
  induction Hl as [|f l Hf Hl IH]; intros acc Hacc; [exact Hacc|].
  cbn [fold_left]. apply IH. unfold Employees.push_field.
  destruct (body f) as [v|]; [|exact Hacc].
  apply balanced_push; [|exact Hacc].
  rewrite count_char_app, Hf. reflexivity.
Qed.

Lemma balanced_collect (body : Employees.Body) :
  Employees.balanced (Employees.collect body).
Proof.
  apply balanced_fold; [apply fields_lack_placeholder|].
  split; [constructor|reflexivity].
Qed.

Lemma fold_push_defined (body : Employees.Body) (l : list string)
      (acc : list string * list text) :
  let present :=
    filter (fun f => match body f with Some _ => true | None => false end) l in
  fold_left (Employees.push_field body) l acc
  = (fst acc ++ map (fun f => (f ++ " = ?")%string) present,
     snd acc ++ map body present).
Proof.
  cbn zeta. revert acc. induction l as [|f l IH]; intros acc.
  - cbn. rewrite !app_nil_r. now destruct acc.
  - cbn [fold_left filter]. rewrite IH. unfold Employees.push_field.
    destruct (body f) as [v|] eqn:Hf; [|reflexivity].
    cbn [fst snd map]. rewrite Hf, <- !app_assoc. reflexivity.
Qed.

Lemma filter_defined_none (body : Employees.Body) (l : list string) :
  (forall f, In f l -> body f = None) ->
  filter (fun f => match body f with Some _ => true | None => false end) l
  = [].
Proof.
  induction l as [|f l IH]; intros H; [reflexivity|].
  cbn. rewrite (H f) by now left. apply IH. intros g Hg. apply H. now right.
Qed.

Lemma text_eqb_spec (a b : text) : reflect (a = b) (Employees.text_eqb a b).
Proof.
  destruct a as [x|], b as [y|]; cbn; try (constructor; congruence).
  destruct (String.eqb_spec x y); constructor; congruence.
Qed.

Section EmployeeStatements.

Variable bcrypt_hash : option string -> Error + string.

Local Abbreviation put_employee := (Employees.put_employee bcrypt_hash).
Local Abbreviation post_employee := (Employees.post_employee bcrypt_hash).

(** X13: whatever the body, the file and the id, a statement an employee
    update or creation submits has exactly as many [?] in its text as it
    has bound values. *)
Theorem placeholders_match_values fault result id body file :
  (forall q, snd (put_employee fault id body file) = Some q ->
             Employees.count_char "?" (Employees.sql q)
             = List.length (Employees.params q))
  /\ (forall q, snd (post_employee result body file) = Some q ->
                Employees.count_char "?" (Employees.sql q)
                = List.length (Employees.params q)).
Proof.
  split; intros q.
  - unfold put_employee.
    destruct (truthy (body "password")
              && negb (Employees.text_eqb (body "password")
                                          (body "confirm_password")));
      [discriminate|].
    pose proof (balanced_collect body) as Hc.
    destruct (Employees.collect body) as [updates values].
    assert (Hsub : forall u v (w : text),
               Employees.balanced (u, v) ->
               forall f : option string,
                 let uv := match f with
                           | Some path =>
                               (u ++ ["image = ?"],
                                v ++ [Some (Employees.forward_slashes path)])
                           | None => (u, v)
                           end in
                 Employees.count_char "?"
                   ("UPDATE employees SET " ++ Employees.join ", " (fst uv)
                    ++ " WHERE id = ?")
                 = List.length (snd uv ++ [w])).
    { intros u v w Huv f.
      assert (Hb : Employees.balanced
                     match f with
                     | Some path =>
                         (u ++ ["image = ?"],
                          v ++ [Some (Employees.forward_slashes path)])
                     | None => (u, v)
                     end).
      { destruct f; [|exact Huv].
        now apply (balanced_push (u, v)). }
      cbn zeta. destruct Hb as [Hall Hlen].
      rewrite !count_char_app, (count_char_join _ Hall), length_app, Hlen.
      cbn. lia. }
    destruct (truthy (body "password")).
    + destruct (bcrypt_hash (body "password")) as [err|h]; [discriminate|].
      assert (Hh : Employees.balanced (updates ++ ["password = ?"], values ++ [Some h]))
        by now apply (balanced_push (updates, values)).
      specialize (Hsub _ _ (Some id) Hh file). cbn zeta in Hsub.
      destruct file; cbn; intros [= <-]; exact Hsub.
    + specialize (Hsub _ _ (Some id) Hc file). cbn zeta in Hsub.
      destruct file; cbn; intros [= <-]; exact Hsub.
  - unfold post_employee.
    destruct (negb (Employees.text_eqb (body "password")
                                       (body "confirm_password")));
      [discriminate|].
    destruct (bcrypt_hash (body "password")); [discriminate|].
    cbn. intros [= <-]. reflexivity.
Qed.

(** X14: [fields.forEach] puts into the SET list exactly the listed fields
    the body defines, in the order of the list, each with its own value:
    a field the body leaves out is not written, and one it gives as the
    empty text is. *)
Theorem collect_defined_fields body :
  let present :=
    filter (fun f => match body f with Some _ => true | None => false end)
           Employees.fields in
  Employees.collect body
  = (map (fun f => (f ++ " = ?")%string) present, map body present).
Proof. apply (fold_push_defined body Employees.fields ([], [])). Qed.

(** X15: an employee update that defines none of the listed fields, gives
    no password (or an empty one) and brings no file is not turned away:
    it submits a statement whose SET list is empty, bound to the id
    alone. *)
Theorem empty_update_statement fault id body :
  (forall f, In f Employees.fields -> body f = None) ->
  truthy (body "password") = false ->
  put_employee fault id body None
  = (match fault with
     | Some err => Employees.Failure err
     | None => Employees.Message 200 "Employee updated successfully"
     end,
     Some (Employees.mkQuery "UPDATE employees SET  WHERE id = ?" [Some id])).
Proof.
  intros Hnone Hpw. unfold put_employee. rewrite Hpw. cbn [andb].
  rewrite collect_defined_fields.
  replace (filter _ Employees.fields) with (@nil string); [reflexivity|].
  symmetry. now apply filter_defined_none.
Qed.

(** X16: an employee creation compares [password] with
    [confirm_password] as they come, and an update does so only for a
    password that is not empty.  A mismatch is answered with 400 "Passwords
    do not match" before anything is hashed or submitted; an update with
    no password or an empty one is submitted whatever [confirm_password]
    says. *)
Theorem passwords_must_match fault result id body file :
  body "password" <> body "confirm_password" ->
  post_employee result body file
  = (Employees.Message 400 "Passwords do not match", None)
  /\ (truthy (body "password") = true ->
      put_employee fault id body file
      = (Employees.Message 400 "Passwords do not match", None))
  /\ (truthy (body "password") = false ->
      exists q,
        put_employee fault id body file
        = (match fault with
           | Some err => Employees.Failure err
           | None => Employees.Message 200 "Employee updated successfully"
           end, Some q)).
Proof.
  intros Hdiff.
  assert (Hneq : Employees.text_eqb (body "password")
                                    (body "confirm_password") = false)
    by (destruct (text_eqb_spec (body "password") (body "confirm_password"));
        [contradiction|reflexivity]).
  unfold post_employee, put_employee. rewrite Hneq. cbn [negb].
  split; [reflexivity|]. split; intros ->; [reflexivity|].
  cbn [andb]. destruct (Employees.collect body) as [updates values].
  destruct file; eexists; reflexivity.
Qed.

Lemma forward_slashes_lacks (path : string) :
  Auth.lacks "092" (Employees.forward_slashes path) = true.
Proof.
  induction path as [|c path IH]; [reflexivity|]. cbn.
  rewrite IH, andb_true_r.
  destruct (Ascii.eqb_spec c "092") as [->|Hc]; [reflexivity|].
  apply negb_true_iff. now apply Ascii.eqb_neq.
Qed.

Lemma forward_slashes_length (path : string) :
  String.length (Employees.forward_slashes path) = String.length path.
Proof. induction path as [|c path IH]; cbn; congruence. Qed.

Lemma forward_slashes_fixed (path : string) :
  Auth.lacks "092" path = true -> Employees.forward_slashes path = path.
Proof.
  induction path as [|c path IH]; [reflexivity|]. cbn.
  intros H. apply andb_true_iff in H as [Hc Hp].
  apply negb_true_iff in Hc. now rewrite Hc, IH.
Qed.

(** X17: the image path an employee creation or update binds is the path
    of the uploaded file with every backslash turned into a slash: it has
    the length of the path and no backslash, and a path without
    backslashes is bound as it is. *)
Theorem image_path_has_no_backslash fault result id body path :
  let image := Employees.forward_slashes path in
  Auth.lacks "092" image = true
  /\ String.length image = String.length path
  /\ (Auth.lacks "092" path = true -> image = path)
  /\ (forall q, snd (put_employee fault id body (Some path)) = Some q ->
                In (Some image) (Employees.params q))
  /\ (forall q, snd (post_employee result body (Some path)) = Some q ->
                In (Some image) (Employees.params q)).
Proof.
  cbn zeta. split; [apply forward_slashes_lacks|].
  split; [apply forward_slashes_length|].
  split; [apply forward_slashes_fixed|]. split; intros q.
  - unfold put_employee.
    destruct (truthy (body "password") && _); [discriminate|].
    destruct (Employees.collect body) as [updates values].
    destruct (truthy (body "password"));
      [destruct (bcrypt_hash (body "password")); [discriminate|]|];
      cbn; intros [= <-]; cbn; rewrite in_app_iff; left;
      rewrite in_app_iff; right; now left.
  - unfold post_employee.
    destruct (negb _); [discriminate|].
    destruct (bcrypt_hash (body "password")); [discriminate|].
    cbn. intros [= <-]. cbn. tauto.
Qed.

End EmployeeStatements.


(** ** The further properties on the sample server *)

Lemma storage_failure_surfaces_witness :
  fst (Sample.toggle (Some "ECONNRESET") "42" Sample.db)
  = Reply 500 (ErrorObject "ECONNRESET")
  /\ visitors (snd (Sample.toggle (Some "ECONNRESET") "42" Sample.db))
     = visitors Sample.db.
Proof.
  destruct (storage_failure_surfaces
              Sample.key_eq Sample.default_status Sample.encoder
              "ECONNRESET" (PUT_status "42") Sample.db eq_refl)
    as (Hanswer & Hrows & _).
  split; [exact Hanswer|exact Hrows].
Defined.


Lemma create_scan_signout_witness :
  exists p row,
    decode_token Sample.scanner
      "data:image/png;base64,http://localhost:3001/api/visitors/signout/43"
    = Some p
    /\ Sample.select p
         (visitors (snd (Sample.create None Sample.form None Sample.db)))
       = Some row
    /\ id row = 43
    /\ visitors (snd (Sample.create None Sample.form None Sample.db))
       = visitors Sample.db ++ [row]
    /\ visitors (snd (Sample.signout None p
                        (snd (Sample.create None Sample.form None
                                            Sample.db))))
       = visitors Sample.db ++ [set_qr_status "used" row].
Proof.
  exact (create_scan_signout
           Sample.key_eq Sample.default_status Sample.encoder
           Sample.scanner sample_codec Sample.form None Sample.db 43
           "data:image/png;base64,http://localhost:3001/api/visitors/signout/43"
           eq_refl eq_refl eq_refl).
Defined.


Lemma empty_update_statement_witness :
  Employees.put_employee Sample2.hash None "9"
                         (Sample2.body [("password", "")]) None
  = (Employees.Message 200 "Employee updated successfully",
     Some (Employees.mkQuery "UPDATE employees SET  WHERE id = ?"
                             [Some "9"])).
Proof.
  apply (empty_update_statement Sample2.hash None "9"
                                (Sample2.body [("password", "")])).
  - intros f Hf. cbn in Hf.
    repeat (destruct Hf as [<-|Hf]; [reflexivity|]). contradiction.
  - reflexivity.
Defined.

Lemma passwords_must_match_witness :
  Employees.post_employee Sample2.hash (inr 5)
    (Sample2.body [("password", "s3cret"); ("confirm_password", "s3cr3t")])
    None
  = (Employees.Message 400 "Passwords do not match", None)
  /\ exists q,
       Employees.put_employee Sample2.hash None "9"
         (Sample2.body [("first_name", "Asha"); ("confirm_password", "x")])
         None
       = (Employees.Message 200 "Employee updated successfully", Some q).
Proof.
  split.
  - refine (proj1 (passwords_must_match Sample2.hash None (inr 5) "9"
                     (Sample2.body [("password", "s3cret");
                                    ("confirm_password", "s3cr3t")])
                     None _)).
    cbv. discriminate.
  - refine (proj2 (proj2 (passwords_must_match Sample2.hash None (inr 5) "9"
                            (Sample2.body [("first_name", "Asha");
                                           ("confirm_password", "x")])
                            None _)) eq_refl).
    cbv. discriminate.
Defined.

(** ** The employees handlers run on sample requests *)

Example sample_employee_update :
  Employees.put_employee Sample2.hash None "9"
    (Sample2.body [("email", "asha@example.org"); ("first_name", "Asha");
                   ("password", "s3cret"); ("confirm_password", "s3cret")])
    (Some "uploads\employees\1700-1.png")
  = (Employees.Message 200 "Employee updated successfully",
     Some (Employees.mkQuery
             "UPDATE employees SET first_name = ?, email = ?, password = ?, image = ? WHERE id = ?"
             [Some "Asha"; Some "asha@example.org"; Some "$2b$10$s3cret";
              Some "uploads/employees/1700-1.png"; Some "9"])).
Proof. reflexivity. Qed.

Example sample_employee_creation_without_password :
  Employees.post_employee Sample2.hash (inr 5)
    (Sample2.body [("first_name", "Asha")]) None
  = (Employees.Failure "data and salt arguments required", None).
Proof. reflexivity. Qed.

(** * The check-in flag over time *)

Section FlagProperties.

Variable id_eq : Z -> string -> bool.
Variable default_status : option Z.
Variable toDataURL : string -> Error + string.

Local Abbreviation put_status := (put_status id_eq default_status).
Local Abbreviation serve := (serve id_eq default_status toDataURL).

(** X18: whatever [status] holds, also a value that is no flag, the first
    toggle whose statement runs leaves a flag, so from then on toggles go
    back and forth: three toggles leave the table as one does. *)
Theorem toggle_settles p d :
  visitors (snd (put_status None p
                   (snd (put_status None p (snd (put_status None p d))))))
  = visitors (snd (put_status None p d)).
Proof.
  rewrite (visitors_put_status id_eq default_status None p
             (snd (put_status None p (snd (put_status None p d))))).
  rewrite (visitors_put_status id_eq default_status None p
             (snd (put_status None p d))).
  cbn match. rewrite map_map.
  rewrite <- (map_id (visitors (snd (put_status None p d)))) at 2.
  apply map_ext_in. intros r Hin. apply toggle_row_twice.
  rewrite visitors_put_status in Hin. cbn match in Hin.
  now apply (toggle_makes_flag id_eq p (visitors d)).
Qed.

(** For bodies of texts: when the column default and every [status] are
    flags, every [status] still is one after any sequence of requests. *)
Lemma status_stays_flag_texts reqs d :
  boolean_like default_status = true ->
  Forall (fun r => boolean_like (status r) = true) (visitors d) ->
  Forall (fun r => boolean_like (status r) = true) (visitors (serve reqs d)).
Proof.
  intros Hdef. revert d.
  induction reqs as [|[fault req] reqs IH]; intros d Hd; [exact Hd|].
  apply IH. now apply handle_keeps_flags.
Qed.

End FlagProperties.


(** * Bodies of any shape *)

Lemma scalar_of_scalar (v : jsval) :
  is_scalar v = true -> js_scalar (scalar_of v) = v.
Proof. now destruct v. Qed.

Lemma plain_scalars_of (body : Body) :
  is_plain body = true -> plain (scalars_of body) = body.
Proof.
  destruct body as [a1 a2 a3 a4 a5 a6 a7 a8 a9 a10 a11 a12].
  unfold is_plain, plain, scalars_of. cbn.
  rewrite !andb_true_iff.
  intros [[[[[[[[[[[H1 H2] H3] H4] H5] H6] H7] H8] H9] H10] H11] H12].
  now rewrite !scalar_of_scalar by assumption.
Qed.

Lemma store_of_db_of (s : Store) : store_of (db_of s) = s.
Proof. now destruct s. Qed.

Section AnyBody.

Variable E : Engine.
Variable toDataURL : string -> Error + string.

Local Abbreviation put_visitor_any := (put_visitor_any E).
Local Abbreviation handle_any := (handle_any E toDataURL).
Local Abbreviation serve_any := (serve_any E toDataURL).
Local Abbreviation put_visitor := (put_visitor (id_matches E) (status_default E)).
Local Abbreviation handle := (handle (id_matches E) (status_default E) toDataURL).
Local Abbreviation serve := (serve (id_matches E) (status_default E) toDataURL).
Local Abbreviation select_by_id := (select_by_id (id_matches E)).

(** ** A body of scalars is served as the body of its texts *)

Lemma update_rows_binds (binds : list (column * literal)) p t :
  update_rows E (map (fun cl => (t_column (fst cl), r_just (snd cl))) binds) p t
  = inr (map (update_row (id_matches E)
                (map (fun cl => Bind (fst cl) (text_of_literal (snd cl))) binds)
                p) t).
Proof.
  assert (Hrow : forall r,
             assign_resolved_all E
               (map (fun cl => (t_column (fst cl), r_just (snd cl))) binds) r
             = inr (assign_all
                      (map (fun cl => Bind (fst cl) (text_of_literal (snd cl)))
                           binds) r)).
  { unfold assign_all.
    induction binds as [|[c l] binds IH]; intros r; [reflexivity|].
    cbn. apply IH. }
  induction t as [|r t IH]; [reflexivity|].
  cbn [update_rows map]. rewrite IH. unfold update_row, where_id.
  destruct (id_matches E (id r) p); [now rewrite Hrow|reflexivity].
Qed.

Lemma run_update_plain fault p sb file t :
  run_update E fault
    (match file with
     | Some name =>
         if truthy file
         then combine descriptive_columns (any_values (plain sb))
              ++ [(c_image, js_scalar (js_string name))]
         else combine descriptive_columns (any_values (plain sb))
     | None => combine descriptive_columns (any_values (plain sb))
     end) p t
  = match fault with
    | Some err => inl err
    | None =>
        inr (map (update_row (id_matches E)
                             (put_visitor_sets (texts sb) file) p) t)
    end.
Proof.
  destruct fault as [err|]; [reflexivity|].
  destruct sb as [v1 v2 v3 v4 v5 v6 v7 v8 v9 v10 v11 v12].
  unfold run_update, put_visitor_sets.
  destruct file as [name|]; [destruct (truthy (Some name))|].
  - exact (update_rows_binds
             [(c_first_name, escape v1); (c_last_name, escape v2);
              (c_email, escape v3); (c_phone, escape v4);
              (c_gender, escape v5); (c_company_id, escape v6);
              (c_department_id, escape v7); (c_designation_id, escape v8);
              (c_whom_to_meet, escape v9); (c_purpose, escape v10);
              (c_aadhar_no, escape v11); (c_address, escape v12);
              (c_image, lit_quoted name)] p t).
  - exact (update_rows_binds
             [(c_first_name, escape v1); (c_last_name, escape v2);
              (c_email, escape v3); (c_phone, escape v4);
              (c_gender, escape v5); (c_company_id, escape v6);
              (c_department_id, escape v7); (c_designation_id, escape v8);
              (c_whom_to_meet, escape v9); (c_purpose, escape v10);
              (c_aadhar_no, escape v11); (c_address, escape v12)] p t).
  - exact (update_rows_binds
             [(c_first_name, escape v1); (c_last_name, escape v2);
              (c_email, escape v3); (c_phone, escape v4);
              (c_gender, escape v5); (c_company_id, escape v6);
              (c_department_id, escape v7); (c_designation_id, escape v8);
              (c_whom_to_meet, escape v9); (c_purpose, escape v10);
              (c_aadhar_no, escape v11); (c_address, escape v12)] p t).
Qed.

(** An update with a body of scalars does what the update with the body
    of their texts does. *)
Lemma put_visitor_any_plain fault p sb file s :
  put_visitor_any fault p (plain sb) file s
  = (fst (put_visitor fault p (texts sb) file (db_of s)),
     store_of (snd (put_visitor fault p (texts sb) file (db_of s)))).
Proof.
  unfold put_visitor_any. rewrite run_update_plain.
  destruct fault as [err|]; [now destruct s|reflexivity].
Qed.

Lemma handle_any_plain fault req s :
  is_plain_request req = true ->
  handle_any fault req s
  = (fst (handle fault (as_typed req) (db_of s)),
     store_of (snd (handle fault (as_typed req) (db_of s)))).
Proof.
  destruct req as [req|p body file]; [reflexivity|].
  cbn [is_plain_request as_typed handle_any]. intros Hplain.
  rewrite <- (plain_scalars_of body Hplain) at 1.
  apply put_visitor_any_plain.
Qed.

(** What a request does to the table and the counter does not depend on
    the statements submitted before. *)
Lemma handle_without_log fault req d :
  fst (handle fault req (db_of (store_of d))) = fst (handle fault req d)
  /\ store_of (snd (handle fault req (db_of (store_of d))))
     = store_of (snd (handle fault req d)).
Proof.
  destruct req as [|p|body file|p body file|p|p|p].
  - destruct fault; split; reflexivity.
  - destruct fault; split; reflexivity.
  - destruct fault; [split; reflexivity|].
    unfold handle, post_visitor, db_query, db_of, store_of.
    cbn -[qrText Text.string_of_Z].
    destruct (toDataURL _); split; reflexivity.
  - destruct fault; split; reflexivity.
  - destruct fault; split; reflexivity.
  - unfold handle, get_card.
    destruct (toDataURL (qrText p)); split; reflexivity.
  - destruct fault; split; reflexivity.
Qed.

Lemma serve_any_plain reqs d :
  forallb (fun fr => is_plain_request (snd fr)) reqs = true ->
  serve_any reqs (store_of d)
  = store_of (serve (map (fun fr => (fst fr, as_typed (snd fr))) reqs) d).
Proof.
  revert d. induction reqs as [|[fault req] reqs IH]; intros d Hplain;
    [reflexivity|].
  cbn [forallb snd] in Hplain. apply andb_true_iff in Hplain as [Hreq Hrest].
  cbn [map fst snd].
  change (serve_any ((fault, req) :: reqs) (store_of d))
    with (serve_any reqs (snd (handle_any fault req (store_of d)))).
  change (serve ((fault, as_typed req)
                   :: map (fun fr => (fst fr, as_typed (snd fr))) reqs) d)
    with (serve (map (fun fr => (fst fr, as_typed (snd fr))) reqs)
                (snd (handle fault (as_typed req) d))).
  rewrite (handle_any_plain fault req (store_of d) Hreq). cbn [snd].
  rewrite (proj2 (handle_without_log fault (as_typed req) d)).
  now rewrite IH.
Qed.

End AnyBody.

Section AnyBodyProperties.

Variable E : Engine.
Variable toDataURL : string -> Error + string.

Local Abbreviation put_visitor_any := (put_visitor_any E).
Local Abbreviation handle_any := (handle_any E toDataURL).
Local Abbreviation serve_any := (serve_any E toDataURL).
Local Abbreviation select_by_id := (select_by_id (id_matches E)).

Lemma table_put_visitor_any_plain fault p sb file s :
  table (snd (put_visitor_any fault p (plain sb) file s))
  = visitors (snd (put_visitor (id_matches E) (status_default E)
                               fault p (texts sb) file (db_of s))).
Proof. now rewrite put_visitor_any_plain. Qed.

Lemma table_typed fault req s :
  table (snd (handle_any fault (Typed req) s))
  = visitors (snd (handle (id_matches E) (status_default E) toDataURL
                          fault req (db_of s))).
Proof. reflexivity. Qed.

(** ** What an update leaves alone *)

(** C10: an update whose body has scalar fields only (texts, numbers,
    booleans, null, or absent), whatever its id, fields and file and
    whether or not its statement runs, keeps the rows in place and leaves
    [id], [qr_status] and [status] of each as they were; [image] too when
    the request has no file (or a file whose stored name is empty). *)
Theorem put_visitor_frame fault p sb file s :
  Forall2 (fun r r' =>
             id r' = id r
             /\ qr_status r' = qr_status r
             /\ status r' = status r
             /\ (file = None -> image r' = image r)
             /\ (truthy file = false -> image r' = image r))
          (table s) (table (snd (put_visitor_any fault p (plain sb) file s)))
  /\ next_key (snd (put_visitor_any fault p (plain sb) file s)) = next_key s.
Proof.
  rewrite put_visitor_any_plain. cbn [snd store_of table next_key].
  exact (put_visitor_frame_texts (id_matches E) (status_default E)
                                 fault p (texts sb) file (db_of s)).
Qed.

(** ** No way back to 'unused' for bodies of scalars *)

(** C2: a row whose [qr_status] is 'used' is, after any sequence of
    requests to the router in which every update has a body of scalar
    fields (sign-outs, toggles, such updates, cards, and the reads and
    the creations with bodies of texts as well), whatever their
    parameters and whichever of their statements fail, still in its place
    with the same [id] and with [qr_status] = 'used'. *)
Theorem qr_status_monotonic reqs s i r :
  forallb (fun fr => is_plain_request (snd fr)) reqs = true ->
  nth_error (table s) i = Some r ->
  qr_status r = "used" ->
  exists r', nth_error (table (serve_any reqs s)) i = Some r'
             /\ id r' = id r
             /\ qr_status r' = "used"
             /\ qr_status r' <> "unused".
Proof.
  intros Hplain Hi Hr.
  replace (serve_any reqs s) with (serve_any reqs (store_of (db_of s)))
    by now rewrite store_of_db_of.
  rewrite (serve_any_plain E toDataURL reqs (db_of s) Hplain).
  exact (used_stays_used_texts (id_matches E) (status_default E) toDataURL
           _ (db_of s) i r Hi Hr).
Qed.

(** ** Updates with bodies of scalars *)

(** X2: after an update with a body of scalar fields whose statement ran,
    GET /:id for the same id answers with the row it answered with
    before, in which the twelve descriptive columns now hold the fields
    of the body as written into the statement (NULL for a field that is
    absent or null), [image] holds the stored file name if a file came
    with the request and its old value otherwise, and [id], [status] and
    [qr_status] are as before. *)
Theorem put_visitor_read_back p sb file s r :
  select_by_id p (table s) = Some r ->
  fst (put_visitor_any None p (plain sb) file s)
  = Reply 200 (JsonMessage "Visitor updated successfully")
  /\ fst (handle_any None (Typed (GET_visitor p))
            (snd (put_visitor_any None p (plain sb) file s)))
     = Reply 200 (JsonRow (Some
         (mkVisitor (id r)
                    (text_of_literal (escape (s_first_name sb)))
                    (text_of_literal (escape (s_last_name sb)))
                    (text_of_literal (escape (s_email sb)))
                    (text_of_literal (escape (s_phone sb)))
                    (text_of_literal (escape (s_gender sb)))
                    (text_of_literal (escape (s_company_id sb)))
                    (text_of_literal (escape (s_department_id sb)))
                    (text_of_literal (escape (s_designation_id sb)))
                    (text_of_literal (escape (s_whom_to_meet sb)))
                    (text_of_literal (escape (s_purpose sb)))
                    (text_of_literal (escape (s_aadhar_no sb)))
                    (text_of_literal (escape (s_address sb)))
                    (if truthy file then file else image r)
                    (status r) (qr_status r)))).
Proof.
  intros Hsel. rewrite put_visitor_any_plain. split; [reflexivity|].
  cbn [snd handle_any fst].
  set (d := snd (put_visitor (id_matches E) (status_default E) None p
                              (texts sb) file (db_of s))).
  rewrite (proj1 (handle_without_log E toDataURL None (GET_visitor p) d)).
  exact (read_back_texts (id_matches E) (status_default E)
                         p (texts sb) file (db_of s) r Hsel).
Qed.

(** X3: an update with a body of scalar fields replaces the one before
    it.  Two such updates of the same id leave the table as the second
    alone would, unless only the first brought a file; so repeating such
    an update changes nothing. *)
Theorem put_visitor_last_wins p sb1 file1 sb2 file2 s :
  truthy file2 = true \/ truthy file1 = false ->
  table (snd (put_visitor_any None p (plain sb2) file2
                (snd (put_visitor_any None p (plain sb1) file1 s))))
  = table (snd (put_visitor_any None p (plain sb2) file2 s)).
Proof.
  intros Hfile. rewrite !table_put_visitor_any_plain.
  rewrite !visitors_put_visitor. cbn [db_of visitors].
  rewrite table_put_visitor_any_plain, visitors_put_visitor.
  cbn [db_of visitors]. rewrite map_map.
  apply map_ext. intros r. now apply put_row_overwrites.
Qed.

Lemma table_signout fault p s :
  table (snd (handle_any fault (Typed (GET_signout p)) s))
  = match fault with
    | Some _ => table s
    | None => map (update_row (id_matches E) [QrStatus "used"] p) (table s)
    end.
Proof. now destruct fault. Qed.

Lemma table_toggle fault p s :
  table (snd (handle_any fault (Typed (PUT_status p)) s))
  = match fault with
    | Some _ => table s
    | None => map (update_row (id_matches E) [NotStatus] p) (table s)
    end.
Proof. now destruct fault. Qed.

Lemma table_update fault p sb file s :
  table (snd (put_visitor_any fault p (plain sb) file s))
  = match fault with
    | Some _ => table s
    | None =>
        map (update_row (id_matches E) (put_visitor_sets (texts sb) file) p)
            (table s)
    end.
Proof.
  rewrite table_put_visitor_any_plain, visitors_put_visitor.
  now destruct fault.
Qed.

(** X5: a sign-out and a toggle write different columns, and so does an
    update with a body of scalar fields: any two of the three, for the
    same id or for two ids, and whether or not their statements fail,
    leave the same table in either order. *)
Theorem writers_commute fault1 fault2 p q sb file s :
  table (snd (handle_any fault1 (Typed (GET_signout p))
                (snd (handle_any fault2 (Typed (PUT_status q)) s))))
  = table (snd (handle_any fault2 (Typed (PUT_status q))
                  (snd (handle_any fault1 (Typed (GET_signout p)) s))))
  /\ table (snd (handle_any fault1 (Typed (GET_signout p))
                   (snd (put_visitor_any fault2 q (plain sb) file s))))
     = table (snd (put_visitor_any fault2 q (plain sb) file
                     (snd (handle_any fault1 (Typed (GET_signout p)) s))))
  /\ table (snd (handle_any fault1 (Typed (PUT_status p))
                   (snd (put_visitor_any fault2 q (plain sb) file s))))
     = table (snd (put_visitor_any fault2 q (plain sb) file
                     (snd (handle_any fault1 (Typed (PUT_status p)) s)))).
Proof.
  rewrite !table_signout, !table_toggle, !table_update.
  rewrite !table_signout, !table_toggle.
  destruct fault1, fault2; repeat split; try reflexivity;
    rewrite !map_map; apply map_ext; intros r; apply update_row_comm;
    intros r0.
  - apply signout_toggle_rows.
  - apply signout_put_rows.
  - apply toggle_put_rows.
Qed.

(** X6: no sequence of requests in which every update has a body of
    scalar fields removes a row, moves one or changes an [id]: the keys of
    the table, in order, are the keys it had, followed by at most one new
    key for each creation among the requests. *)
Theorem rows_never_removed reqs s :
  forallb (fun fr => is_plain_request (snd fr)) reqs = true ->
  exists extra,
    map id (table (serve_any reqs s)) = map id (table s) ++ extra
    /\ (List.length extra
        <= List.length
             (filter (fun fr => is_creation (as_typed (snd fr))) reqs))%nat.
Proof.
  intros Hplain.
  replace (serve_any reqs s) with (serve_any reqs (store_of (db_of s)))
    by now rewrite store_of_db_of.
  rewrite (serve_any_plain E toDataURL reqs (db_of s) Hplain).
  destruct (rows_never_removed_texts (id_matches E) (status_default E)
              toDataURL (map (fun fr => (fst fr, as_typed (snd fr))) reqs)
              (db_of s)) as (extra & Hkeys & Hlen).
  exists extra. split; [exact Hkeys|].
  replace (List.length (filter (fun fr => is_creation (as_typed (snd fr))) reqs))
    with (List.length
            (filter (fun fr : option Error * Request => is_creation (snd fr))
                    (map (fun fr => (fst fr, as_typed (snd fr))) reqs)));
    [exact Hlen|].
  clear. induction reqs as [|fr reqs IH]; [reflexivity|].
  cbn [map filter snd]. destruct (is_creation (as_typed (snd fr)));
    cbn [List.length]; now rewrite IH.
Qed.

(** X19: no handler writes anything but NULL, 0 or 1 to [status] when
    every update has a body of scalar fields.  When the column default is
    one of these and every row holds one of these, every row still does
    after any sequence of such requests, whichever of their statements
    fail. *)
Theorem status_stays_flag reqs s :
  forallb (fun fr => is_plain_request (snd fr)) reqs = true ->
  boolean_like (status_default E) = true ->
  Forall (fun r => boolean_like (status r) = true) (table s) ->
  Forall (fun r => boolean_like (status r) = true) (table (serve_any reqs s)).
Proof.
  intros Hplain Hdef Hs.
  replace (serve_any reqs s) with (serve_any reqs (store_of (db_of s)))
    by now rewrite store_of_db_of.
  rewrite (serve_any_plain E toDataURL reqs (db_of s) Hplain).
  exact (status_stays_flag_texts (id_matches E) (status_default E) toDataURL
           _ (db_of s) Hdef Hs).
Qed.

End AnyBodyProperties.

(** ** What a body of another shape does *)

(** C2, the claim as it stands refuted: visitor 41 has signed out; an
    update for id 41 whose body has the object
    [{first_name: 'x', qr_status: 'unused'}] as [address] runs
    [address = `first_name` = 'x', `qr_status` = 'unused'], is answered as
    a success and leaves the row with [qr_status] = 'unused'. *)
Lemma update_reverts_used_row :
  nth_error (table Sample3.store) 0 = Some (Sample.blank 41 (Some 1) "used")
  /\ Sample3.update_any None "41" Sample3.crafted None Sample3.store
     = (Reply 200 (JsonMessage "Visitor updated successfully"),
        mkStore [Sample3.asha 41 (Some "0") None (Some 1) "unused";
                 Sample.blank 42 (Some 0) "unused"] 43)
  /\ ~ (forall reqs s i r,
           nth_error (table s) i = Some r ->
           qr_status r = "used" ->
           exists r',
             nth_error (table (serve_any Sample3.engine Sample.encoder reqs s)) i
             = Some r'
             /\ qr_status r' = "used").
Proof.
  split; [reflexivity|]. split; [reflexivity|].
  intros Hall.
  destruct (Hall [(None, PUT_visitor_any "41" Sample3.crafted None)]
                 Sample3.store 0%nat (Sample.blank 41 (Some 1) "used")
                 eq_refl eq_refl) as (r' & Hrow & Hused).
  cbn in Hrow. injection Hrow as <-. discriminate Hused.
Qed.

(** C10, the claim as it stands refuted: an update for id 41 with no file
    whose body has the object
    [{first_name: 'x', status: '5', id: '99', image: 'z.png',
      qr_status: 'unused'}] as [address] changes [id], [status], [image]
    and [qr_status] of the row. *)
Lemma update_writes_other_columns :
  Sample3.update_any None "41" Sample3.crafted_more None Sample3.store
  = (Reply 200 (JsonMessage "Visitor updated successfully"),
     mkStore [Sample3.asha 99 (Some "0") (Some "z.png") (Some 5) "unused";
              Sample.blank 42 (Some 0) "unused"] 43)
  /\ ~ (forall fault p body file s,
           Forall2 (fun r r' =>
                      id r' = id r /\ qr_status r' = qr_status r
                      /\ status r' = status r
                      /\ (file = None -> image r' = image r))
                   (table s)
                   (table (snd (put_visitor_any Sample3.engine fault p body
                                                file s)))).
Proof.
  split; [reflexivity|].
  intros Hall.
  specialize (Hall None "41" Sample3.crafted_more None Sample3.store).
  inversion Hall as [|r r' t t' Hrow _]; subst.
  destruct Hrow as [Hid _]. discriminate Hid.
Qed.

Lemma put_visitor_frame_witness :
  Forall2 (fun r r' => id r' = id r /\ qr_status r' = qr_status r
                       /\ status r' = status r /\ image r' = image r)
          (table Sample3.store)
          (table (snd (Sample3.update_any None "41" (plain Sample3.scalars)
                                          None Sample3.store))).
Proof.
  pose proof (proj1 (put_visitor_frame Sample3.engine None "41"
                       Sample3.scalars None Sample3.store)) as H.
  revert H. apply Forall2_impl.
  intros r r' (Hid & Hqr & Hst & Him & _). repeat split; auto.
Defined.

Lemma qr_status_monotonic_witness :
  exists r',
    nth_error (table (Sample3.serve_any_all Sample3.traffic Sample3.store)) 0
    = Some r'
    /\ id r' = 41 /\ qr_status r' = "used" /\ qr_status r' <> "unused".
Proof.
  apply (qr_status_monotonic Sample3.engine Sample.encoder
           Sample3.traffic Sample3.store 0%nat
           (Sample.blank 41 (Some 1) "used"));
    reflexivity.
Defined.

Lemma put_visitor_read_back_witness :
  fst (handle_any Sample3.engine Sample.encoder None (Typed (GET_visitor "42"))
         (snd (Sample3.update_any None "42" (plain Sample3.scalars) None
                                  (store_of Sample.photo_db))))
  = Reply 200 (JsonRow (Some
      (mkVisitor 42 (Some "Asha") (Some "Rao") None (Some "555-0100") None
                 (Some "1") (Some "2") None (Some "7") (Some "Audit")
                 None (Some "0") (Some "1700000000000.png") (Some 0)
                 "unused"))).
Proof.
  exact (proj2 (put_visitor_read_back
                  Sample3.engine Sample.encoder "42" Sample3.scalars None
                  (store_of Sample.photo_db) _ eq_refl)).
Defined.

Lemma put_visitor_last_wins_witness :
  table (snd (Sample3.update_any None "42" (plain Sample3.scalars) None
                (snd (Sample3.update_any None "42" (plain Sample3.scalars)
                                         None Sample3.store))))
  = table (snd (Sample3.update_any None "42" (plain Sample3.scalars) None
                                   Sample3.store)).
Proof.
  apply (put_visitor_last_wins Sample3.engine).
  right. reflexivity.
Defined.

Lemma rows_never_removed_witness :
  exists extra,
    map id (table (Sample3.serve_any_all Sample3.traffic Sample3.store))
    = [41; 42] ++ extra
    /\ (List.length extra <= 1)%nat.
Proof.
  exact (rows_never_removed Sample3.engine Sample.encoder
                            Sample3.traffic Sample3.store eq_refl).
Defined.

Lemma status_stays_flag_witness :
  Forall (fun r => boolean_like (status r) = true)
         (table (Sample3.serve_any_all Sample3.traffic Sample3.store)).
Proof.
  apply (status_stays_flag Sample3.engine Sample.encoder
                           Sample3.traffic Sample3.store eq_refl eq_refl).
  repeat constructor.
Defined.

(** * Cards read back *)

Lemma every_weaken (holds holds' : ascii -> bool) (s : string) :
  (forall c, holds c = true -> holds' c = true) ->
  every holds s = true -> every holds' s = true.
Proof.
  intros Himp. induction s as [|c s IH]; [reflexivity|]. cbn.
  intros H. apply andb_true_iff in H as [Hc Hs].
  now rewrite (Himp c Hc), IH.
Qed.

Lemma up_to_all (stop : ascii -> bool) (s : string) :
  every (fun c => negb (stop c)) s = true -> up_to stop s = s.
Proof.
  induction s as [|c s IH]; [reflexivity|]. cbn.
  intros H. apply andb_true_iff in H as [Hc Hs].
  apply negb_true_iff in Hc. now rewrite Hc, IH.
Qed.

Lemma chop_slash_all (s : string) :
  every (fun c => negb (Ascii.eqb c "/")) s = true -> chop_slash s = s.
Proof.
  induction s as [|c s IH]; [reflexivity|].
  intros H. cbn in H. apply andb_true_iff in H as [Hc Hs].
  apply negb_true_iff in Hc. cbn [chop_slash].
  destruct s as [|c' s']; [now rewrite Hc|].
  now rewrite (IH Hs).
Qed.

Lemma digit_or_minus_plain (c : ascii) :
  digit_or_minus c = true ->
  negb (Ascii.eqb c "?" || Ascii.eqb c "#") = true
  /\ negb (Ascii.eqb c "/") = true
  /\ negb (Ascii.eqb c "%") = true
  /\ Ascii.eqb (lower_char c) "c" = false.
Proof.
  destruct c as [[] [] [] [] [] [] [] []]; intros H; vm_compute in H;
    try discriminate H; vm_compute; auto.
Qed.

Lemma numeral_not_card (p : string) :
  numeral p = true -> String.eqb (lower p) "card" = false.
Proof.
  unfold numeral. destruct p as [|c p]; [discriminate|]. cbn.
  intros H. apply andb_true_iff in H as [Hc _].
  now rewrite (proj2 (proj2 (proj2 (digit_or_minus_plain c Hc)))).
Qed.

Lemma uint_digits (d : Decimal.uint) :
  every digit_or_minus (NilEmpty.string_of_uint d) = true.
Proof. induction d; cbn; auto. Qed.

Lemma string_of_Z_numeral (n : Z) : numeral (Text.string_of_Z n) = true.
Proof.
  unfold numeral. apply andb_true_iff. split.
  - apply negb_true_iff. apply String.eqb_neq. apply string_of_Z_not_empty.
  - unfold Text.string_of_Z.
    destruct (Z.to_int n) as [d|d]; cbn.
    + destruct d; try apply (uint_digits (_ d)); reflexivity.
    + destruct d; try apply (uint_digits (_ d)); reflexivity.
Qed.

Section Cards.

Variable id_eq : Z -> string -> bool.
Variable default_status : option Z.
Variable toDataURL : string -> Error + string.
Variable scan : string -> option string.
Variable decodeURIComponent : string -> option string.

(** Scanning gives back the text that was encoded. *)
Hypothesis scan_toDataURL :
  forall url qr, toDataURL url = inr qr -> scan qr = Some url.

(** A text without a percent sign decodes to itself. *)
Hypothesis decode_without_escape :
  forall s, every (fun c => negb (Ascii.eqb c "%")) s = true ->
            decodeURIComponent s = Some s.

Local Abbreviation read_back := (read_back decodeURIComponent).
Local Abbreviation read_token := (read_token decodeURIComponent scan).

Lemma numeral_read_back (p : string) :
  numeral p = true -> read_back (qrText p) = Some p.
Proof.
  intros Hnum. unfold read_back, qrText. rewrite strip_prefix_app.
  pose proof (numeral_not_card p Hnum) as Hcard.
  unfold numeral in Hnum. apply andb_true_iff in Hnum as [Hne Hall].
  unfold signout_param.
  rewrite up_to_all
    by (revert Hall; apply every_weaken; intros c Hc;
        apply (digit_or_minus_plain c Hc)).
  assert (Hslash : every (fun c => negb (Ascii.eqb c "/")) p = true)
    by (revert Hall; apply every_weaken; intros c Hc;
        apply (digit_or_minus_plain c Hc)).
  rewrite (chop_slash_all p Hslash), Hslash, Hcard.
  apply negb_true_iff in Hne. rewrite Hne. cbn [negb].
  apply decode_without_escape.
  revert Hall. apply every_weaken. intros c Hc.
  apply (digit_or_minus_plain c Hc).
Qed.


End Cards.

Lemma sample_decode (s : string) :
  every (fun c => negb (Ascii.eqb c "%")) s = true ->
  Sample3.decode s = Some s.
Proof. unfold Sample3.decode. now intros ->. Qed.


